(** * Okteto stacks: the manifest model, its defaulting and validation
      (pkg/model/stack.go) and the translation of a stack into cluster
      resources (package stack, translate.go).

    The Go code is embedded shallowly.  Go maps are [gmap]s; ranging over a
    Go map visits its keys in an order the language leaves unspecified, so
    every function that ranges over a map takes the order of the visit as
    an argument.  Functions that return an [error] return [option string]
    ([None] is Go's nil), next to the value they have mutated through their
    pointer argument. *)

From Stdlib Require Import ZArith.
From stdpp Require Import gmap strings list sorting pretty.

Local Open Scope Z_scope.

(** Go's [error] value: [None] is nil, [Some msg] carries [err.Error()]. *)
Abbreviation error := (option string).

(** ** Package strings *)
Module strings.

Definition HasPrefix (s prefix : string) : bool := String.prefix prefix s.

Fixpoint Contains (s substr : string) : bool :=
  String.prefix substr s ||
  match s with
  | EmptyString => false
  | String _ s' => Contains s' substr
  end.

Definition HasSuffix (s suffix : string) : bool :=
  String.prefix (String.rev suffix) (String.rev s).

(** [strings.Compare]: lexicographic on bytes, as -1, 0 or 1. *)
Definition Compare (a b : string) : Z :=
  match String.compare a b with
  | Lt => -1
  | Eq => 0
  | Gt => 1
  end.

End strings.

(** ** Package model *)
Module model.

Module EnvVar.
Record t := mk { Name : string; Value : string }.
End EnvVar.

(** [BuildInfo] is declared in another file of the package; these are the
    fields stack.go and translate.go read and write. *)
Module BuildInfo.
Record t := mk {
  Name : string;
  Context : string;
  Dockerfile : string;
  Target : string;
  CacheFrom : list string;
  Args : list EnvVar.t
}.

Definition with_Name (b : t) (v : string) : t :=
  mk v (Context b) (Dockerfile b) (Target b) (CacheFrom b) (Args b).
Definition with_Context (b : t) (v : string) : t :=
  mk (Name b) v (Dockerfile b) (Target b) (CacheFrom b) (Args b).
Definition with_Dockerfile (b : t) (v : string) : t :=
  mk (Name b) (Context b) v (Target b) (CacheFrom b) (Args b).
End BuildInfo.

(** [Quantity] wraps a k8s [resource.Quantity], a signed decimal amount.
    It is kept as the integer number of its smallest unit; [Cmp] is the
    numeric comparison, returning -1, 0 or 1 as in Go. *)
Module Quantity.
Record t := mk { Value : Z }.

Definition Cmp (q y : Z) : Z :=
  match Z.compare q y with
  | Lt => -1
  | Eq => 0
  | Gt => 1
  end.

(** [resource.MustParse("0")] *)
Definition zero : Z := 0.
End Quantity.

Module StorageResource.
Record t := mk { Size : Quantity.t; Class : string }.
End StorageResource.

Module ServiceResources.
Record t := mk {
  CPU : Quantity.t;
  Memory : Quantity.t;
  Storage : StorageResource.t
}.
End ServiceResources.

Module StackResources.
Record t := mk {
  Limits : ServiceResources.t;
  Requests : ServiceResources.t
}.
End StackResources.

Module Endpoint.
Record t := mk { Path : string; Service : string; Port : Z }.
End Endpoint.

Module Service.
Record t := mk {
  Labels : gmap string string;
  Annotations : gmap string string;
  Public : bool;
  Image : string;
  Build : option BuildInfo.t;
  Replicas : Z;
  Entrypoint : list string;
  Command : list string;
  Args : list string;
  Environment : list EnvVar.t;
  EnvFiles : list string;
  CapAdd : list string;
  CapDrop : list string;
  Healthchecks : bool;
  Ports : list Z;
  Expose : list Z;
  Volumes : list string;
  StopGracePeriod : Z;
  Resources : StackResources.t
}.

Definition with_Annotations (s : t) (v : gmap string string) : t :=
  mk (Labels s) v (Public s) (Image s) (Build s) (Replicas s)
     (Entrypoint s) (Command s) (Args s) (Environment s) (EnvFiles s)
     (CapAdd s) (CapDrop s) (Healthchecks s) (Ports s) (Expose s)
     (Volumes s) (StopGracePeriod s) (Resources s).
Definition with_Public (s : t) (v : bool) : t :=
  mk (Labels s) (Annotations s) v (Image s) (Build s) (Replicas s)
     (Entrypoint s) (Command s) (Args s) (Environment s) (EnvFiles s)
     (CapAdd s) (CapDrop s) (Healthchecks s) (Ports s) (Expose s)
     (Volumes s) (StopGracePeriod s) (Resources s).
Definition with_Image (s : t) (v : string) : t :=
  mk (Labels s) (Annotations s) (Public s) v (Build s) (Replicas s)
     (Entrypoint s) (Command s) (Args s) (Environment s) (EnvFiles s)
     (CapAdd s) (CapDrop s) (Healthchecks s) (Ports s) (Expose s)
     (Volumes s) (StopGracePeriod s) (Resources s).
Definition with_Build (s : t) (v : option BuildInfo.t) : t :=
  mk (Labels s) (Annotations s) (Public s) (Image s) v (Replicas s)
     (Entrypoint s) (Command s) (Args s) (Environment s) (EnvFiles s)
     (CapAdd s) (CapDrop s) (Healthchecks s) (Ports s) (Expose s)
     (Volumes s) (StopGracePeriod s) (Resources s).
Definition with_Replicas (s : t) (v : Z) : t :=
  mk (Labels s) (Annotations s) (Public s) (Image s) (Build s) v
     (Entrypoint s) (Command s) (Args s) (Environment s) (EnvFiles s)
     (CapAdd s) (CapDrop s) (Healthchecks s) (Ports s) (Expose s)
     (Volumes s) (StopGracePeriod s) (Resources s).
Definition with_Command (s : t) (v : list string) : t :=
  mk (Labels s) (Annotations s) (Public s) (Image s) (Build s) (Replicas s)
     (Entrypoint s) v (Args s) (Environment s) (EnvFiles s)
     (CapAdd s) (CapDrop s) (Healthchecks s) (Ports s) (Expose s)
     (Volumes s) (StopGracePeriod s) (Resources s).
Definition with_Args (s : t) (v : list string) : t :=
  mk (Labels s) (Annotations s) (Public s) (Image s) (Build s) (Replicas s)
     (Entrypoint s) (Command s) v (Environment s) (EnvFiles s)
     (CapAdd s) (CapDrop s) (Healthchecks s) (Ports s) (Expose s)
     (Volumes s) (StopGracePeriod s) (Resources s).
Definition with_Environment (s : t) (v : list EnvVar.t) : t :=
  mk (Labels s) (Annotations s) (Public s) (Image s) (Build s) (Replicas s)
     (Entrypoint s) (Command s) (Args s) v (EnvFiles s)
     (CapAdd s) (CapDrop s) (Healthchecks s) (Ports s) (Expose s)
     (Volumes s) (StopGracePeriod s) (Resources s).
Definition with_EnvFiles (s : t) (v : list string) : t :=
  mk (Labels s) (Annotations s) (Public s) (Image s) (Build s) (Replicas s)
     (Entrypoint s) (Command s) (Args s) (Environment s) v
     (CapAdd s) (CapDrop s) (Healthchecks s) (Ports s) (Expose s)
     (Volumes s) (StopGracePeriod s) (Resources s).
Definition with_Ports (s : t) (v : list Z) : t :=
  mk (Labels s) (Annotations s) (Public s) (Image s) (Build s) (Replicas s)
     (Entrypoint s) (Command s) (Args s) (Environment s) (EnvFiles s)
     (CapAdd s) (CapDrop s) (Healthchecks s) v (Expose s)
     (Volumes s) (StopGracePeriod s) (Resources s).

Definition with_Labels (s : t) (v : gmap string string) : t :=
  mk v (Annotations s) (Public s) (Image s) (Build s) (Replicas s)
     (Entrypoint s) (Command s) (Args s) (Environment s) (EnvFiles s)
     (CapAdd s) (CapDrop s) (Healthchecks s) (Ports s) (Expose s)
     (Volumes s) (StopGracePeriod s) (Resources s).
Definition with_Entrypoint (s : t) (v : list string) : t :=
  mk (Labels s) (Annotations s) (Public s) (Image s) (Build s) (Replicas s)
     v (Command s) (Args s) (Environment s) (EnvFiles s)
     (CapAdd s) (CapDrop s) (Healthchecks s) (Ports s) (Expose s)
     (Volumes s) (StopGracePeriod s) (Resources s).
Definition with_Expose (s : t) (v : list Z) : t :=
  mk (Labels s) (Annotations s) (Public s) (Image s) (Build s) (Replicas s)
     (Entrypoint s) (Command s) (Args s) (Environment s) (EnvFiles s)
     (CapAdd s) (CapDrop s) (Healthchecks s) (Ports s) v
     (Volumes s) (StopGracePeriod s) (Resources s).
Definition with_Resources (s : t) (v : StackResources.t) : t :=
  mk (Labels s) (Annotations s) (Public s) (Image s) (Build s) (Replicas s)
     (Entrypoint s) (Command s) (Args s) (Environment s) (EnvFiles s)
     (CapAdd s) (CapDrop s) (Healthchecks s) (Ports s) (Expose s)
     (Volumes s) (StopGracePeriod s) v.

(** Go's zero value of the struct, which indexing [s.Services] with an
    absent key yields. *)
Definition zero : t :=
  let q := Quantity.mk 0 in
  let r := ServiceResources.mk q q (StorageResource.mk q "") in
  mk ∅ ∅ false "" None 0 [] [] [] [] [] [] [] false [] [] [] 0
     (StackResources.mk r r).
End Service.

Module Stack.
Record t := mk {
  Name : string;
  Namespace : string;
  Services : gmap string Service.t;
  Endpoints : gmap string (list Endpoint.t);
  Manifest : string
}.

Definition with_Services (s : t) (v : gmap string Service.t) : t :=
  mk (Name s) (Namespace s) v (Endpoints s) (Manifest s).
End Stack.

(** *** ReadStack: the defaulting pass *)

Section ReadStack.

(** [setBuildDefaults] lives in another file of the package. *)
Variable setBuildDefaults : BuildInfo.t → BuildInfo.t.

(** The [if svc.Build != nil] block of the loop body. *)
Definition ReadStack_build (b : BuildInfo.t) : BuildInfo.t :=
  let b :=
    if decide (BuildInfo.Name b ≠ "")
    then BuildInfo.with_Name
           (BuildInfo.with_Context b (BuildInfo.Name b)) ""
    else b in
  setBuildDefaults b.

(** The body of [for i, svc := range s.Services], up to the store
    [s.Services[i] = svc]. *)
Definition ReadStack_service (svc : Service.t) : Service.t :=
  let svc :=
    match Service.Build svc with
    | Some b => Service.with_Build svc (Some (ReadStack_build b))
    | None => svc
    end in
  let svc :=
    if decide (Service.Replicas svc = 0)
    then Service.with_Replicas svc 1 else svc in
  let svc :=
    if decide (0 < length (Service.Entrypoint svc))%nat
    then
      let svc := Service.with_Args svc [] in
      let svc := Service.with_Args svc (Service.Command svc) in
      Service.with_Command svc (Service.Entrypoint svc)
    else svc in
  let svc :=
    if decide ((0 < length (Service.Expose svc))%nat
               ∧ length (Service.Ports svc) = 0%nat)
    then Service.with_Public svc false else svc in
  let svc :=
    if decide (0 < length (Service.Expose svc))%nat
    then Service.with_Ports svc (Service.Ports svc ++ Service.Expose svc)
    else svc in
  svc.

(** The loop of [ReadStack], visiting the keys of [s.Services] in
    [order]. *)
Fixpoint ReadStack_range (order : list string)
    (services : gmap string Service.t) : gmap string Service.t :=
  match order with
  | [] => services
  | i :: order =>
      match services !! i with
      | Some svc =>
          ReadStack_range order (<[i := ReadStack_service svc]> services)
      | None => ReadStack_range order services
      end
  end.

(** [ReadStack] after a successful [yaml.UnmarshalStrict]: [s] is the
    unmarshalled stack (with [Manifest] set to the bytes read). *)
Definition ReadStack_defaults (order : list string) (s : Stack.t) : Stack.t :=
  Stack.with_Services s (ReadStack_range order (Stack.Services s)).

End ReadStack.

(** *** validate *)

Definition errBadStackName : string :=
  "must consist of lower case alphanumeric characters or '-', and must start and end with an alphanumeric character".

Fixpoint IsPortInService (port : Z) (portList : list Z) : bool :=
  match portList with
  | [] => false
  | p :: portList =>
      if decide (p = port) then true else IsPortInService port portList
  end.

Section validate.

(** [ValidKubeNameRegex.MatchString]; the regular expression is declared
    in another file of the package. *)
Variable ValidKubeNameRegex_MatchString : string → bool.

(** [fmt.Errorf(format)] with no operands, as a function of the format.
    Two messages of [validate] are built by [fmt.Sprintf] and then handed
    to [fmt.Errorf] as its format, so that package fmt expands them a
    second time: a '%' that a volume or a service name brought into the
    text is read as the start of a verb.  The other messages are
    either constants without a '%', which package fmt returns as they
    are, or formats given their operands. *)
Variable Errorf : string → string.

Definition validateStackName (name : string) : error :=
  if decide (name = "") then Some "name cannot be empty"
  else if ValidKubeNameRegex_MatchString name then Some errBadStackName
  else if strings.HasPrefix name "-" || strings.HasSuffix name "-"
  then Some errBadStackName
  else None.

(** The inner loop [for _, endpoint := range endpoints]. *)
Fixpoint validate_endpoints (s : Stack.t) (endpointName : string)
    (endpoints : list Endpoint.t) : error :=
  match endpoints with
  | [] => None
  | endpoint :: endpoints =>
      match Stack.Services s !! Endpoint.Service endpoint with
      | None =>
          Some ("Invalid endpoint '" +:+ endpointName +:+ "': service '"
                +:+ Endpoint.Service endpoint +:+ "' does not exist.")
      | Some service =>
          if IsPortInService (Endpoint.Port endpoint) (Service.Ports service)
          then
            Some ("Invalid endpoint '" +:+ endpointName +:+ "': service '"
                  +:+ Endpoint.Service endpoint +:+ "' does not have port '"
                  +:+ pretty (Endpoint.Port endpoint) +:+ "'.")
          else validate_endpoints s endpointName endpoints
      end
  end.

(** The outer loop [for endpointName, endpoints := range s.Endpoints]. *)
Fixpoint validate_endpoints_range (s : Stack.t) (order : list string) : error :=
  match order with
  | [] => None
  | endpointName :: order =>
      match Stack.Endpoints s !! endpointName with
      | Some endpoints =>
          match validate_endpoints s endpointName endpoints with
          | Some err => Some err
          | None => validate_endpoints_range s order
          end
      | None => validate_endpoints_range s order
      end
  end.

Fixpoint validate_volumes (name : string) (volumes : list string) : error :=
  match volumes with
  | [] => None
  | v :: volumes =>
      if negb (strings.HasPrefix v "/")
      then Some (Errorf ("Invalid volume '" +:+ v +:+ "' in service '"
                         +:+ name +:+ "': must be an absolute path"))
      else if strings.Contains v ":"
      then Some (Errorf ("Invalid volume '" +:+ v +:+ "' in service '"
                         +:+ name
                         +:+ "': volume bind mounts are not supported"))
      else validate_volumes name volumes
  end.

(** The body of [for name, svc := range s.Services]. *)
Definition validate_service (name : string) (svc : Service.t) : error :=
  match validateStackName name with
  | Some err => Some ("Invalid service name '" +:+ name +:+ "': " +:+ err)
  | None =>
      if decide (Service.Image svc = "" ∧ Service.Build svc = None)
      then Some (Errorf ("Invalid service '" +:+ name
                         +:+ "': image cannot be empty"))
      else validate_volumes name (Service.Volumes svc)
  end.

Fixpoint validate_services_range (s : Stack.t) (order : list string) : error :=
  match order with
  | [] => None
  | name :: order =>
      match Stack.Services s !! name with
      | Some svc =>
          match validate_service name svc with
          | Some err => Some err
          | None => validate_services_range s order
          end
      | None => validate_services_range s order
      end
  end.

(** [(s *Stack) validate()]; [endpointOrder] and [serviceOrder] are the
    orders in which the two maps are ranged over. *)
Definition validate (endpointOrder serviceOrder : list string)
    (s : Stack.t) : error :=
  match validateStackName (Stack.Name s) with
  | Some err => Some ("Invalid stack name: " +:+ err)
  | None =>
      if decide (size (Stack.Services s) = 0%nat)
      then Some "Invalid stack: 'services' cannot be empty"
      else
        match validate_endpoints_range s endpointOrder with
        | Some err => Some err
        | None => validate_services_range s serviceOrder
        end
  end.

End validate.

(** [(svc *Service) SetLastBuiltAnnotation()]; [key] is
    [labels.LastBuiltAnnotation] and [now] is
    [time.Now().UTC().Format(labels.TimeFormat)]. *)
Definition SetLastBuiltAnnotation (key now : string) (svc : Service.t) : Service.t :=
  Service.with_Annotations svc (<[key := now]> (Service.Annotations svc)).

(** [(s *Stack) GetConfigMapName()] *)
Definition GetConfigMapName (s : Stack.t) : string := "okteto-" +:+ Stack.Name s.

(** [(s *Stack) UpdateNamespace(namespace)]: the stack as it is left, and
    the error. *)
Definition UpdateNamespace (namespace : string) (s : Stack.t)
    : Stack.t * error :=
  if decide (namespace = "") then (s, None)
  else if decide (Stack.Namespace s ≠ "" ∧ Stack.Namespace s ≠ namespace)
  then
    (s, Some ("the namespace in the okteto stack manifest '"
              +:+ Stack.Namespace s
              +:+ "' does not match the namespace '" +:+ namespace +:+ "'"))
  else
    (Stack.mk (Stack.Name s) namespace (Stack.Services s)
       (Stack.Endpoints s) (Stack.Manifest s),
     None).

(** [(s *Stack) GetLabelSelector()]; [key] is [labels.StackNameLabel]. *)
Definition GetLabelSelector (key : string) (s : Stack.t) : string :=
  key +:+ "=" +:+ Stack.Name s.

End model.

(** ** Package labels (pkg/k8s/labels)

    The label and annotation keys are constants of a package that is not
    part of the translated files; the translation is stated for any values
    of them. *)
Module okLabels.
Record t := mk {
  StackLabel : string;
  StackNameLabel : string;
  StackServiceNameLabel : string;
  StackEndpointNameLabel : string;
  OktetoAutoIngressAnnotation : string;
  LastBuiltAnnotation : string
}.
End okLabels.

(** ** The Kubernetes objects the translation builds

    Only the fields translate.go fills in. *)
Module apiv1.

Definition ResourceCPU : string := "cpu".
Definition ResourceMemory : string := "memory".

(** A [ResourceList] is a Go map and may be nil: [None]. *)
Abbreviation ResourceList := (option (gmap string Z)).

Module ResourceRequirements.
Record t := mk { Limits : ResourceList; Requests : ResourceList }.
End ResourceRequirements.

Module ObjectMeta.
Record t := mk {
  Name : string;
  Namespace : string;
  Labels : gmap string string;
  Annotations : gmap string string
}.
End ObjectMeta.

Module EnvVar.
Record t := mk { Name : string; Value : string }.
End EnvVar.

Module ServicePort.
Record t := mk { Name : string; Port : Z; TargetPort : Z }.
End ServicePort.

Module VolumeMount.
Record t := mk { MountPath : string; Name : string; SubPath : string }.
End VolumeMount.

Module Capabilities.
Record t := mk { Add : list string; Drop : list string }.
End Capabilities.

Module Container.
Record t := mk {
  Name : string;
  Image : string;
  Command : list string;
  Args : list string;
  Env : list EnvVar.t;
  Ports : list Z;
  SecurityContext : option Capabilities.t;
  VolumeMounts : list VolumeMount.t;
  Resources : ResourceRequirements.t
}.
End Container.

Module PodTemplateSpec.
Record t := mk {
  Labels : gmap string string;
  Annotations : gmap string string;
  TerminationGracePeriodSeconds : Z;
  InitContainers : list Container.t;
  Containers : list Container.t
}.
End PodTemplateSpec.

Module PersistentVolumeClaim.
Record t := mk {
  Meta : ObjectMeta.t;
  AccessModes : list string;
  Requests : gmap string Z;
  StorageClassName : option string
}.
End PersistentVolumeClaim.

Inductive ServiceType := ServiceTypeLoadBalancer | ServiceTypeClusterIP.

Module Service.
Record t := mk {
  Meta : ObjectMeta.t;
  Selector : gmap string string;
  Type_ : ServiceType;
  Ports : list ServicePort.t
}.
End Service.

End apiv1.

Module appsv1.

Module Deployment.
Record t := mk {
  Meta : apiv1.ObjectMeta.t;
  Replicas : Z;
  MatchLabels : gmap string string;
  Template : apiv1.PodTemplateSpec.t
}.
End Deployment.

Module StatefulSet.
Record t := mk {
  Meta : apiv1.ObjectMeta.t;
  Replicas : Z;
  RevisionHistoryLimit : Z;
  MatchLabels : gmap string string;
  ServiceName : string;
  Template : apiv1.PodTemplateSpec.t;
  VolumeClaimTemplates : list apiv1.PersistentVolumeClaim.t
}.
End StatefulSet.

End appsv1.

Module extensions.

Module HTTPIngressPath.
Record t := mk {
  Path : string;
  ServiceName : string;
  ServicePort : Z
}.
End HTTPIngressPath.

(** An ingress with its one rule, given by the paths of the rule. *)
Module Ingress.
Record t := mk {
  Meta : apiv1.ObjectMeta.t;
  Paths : list HTTPIngressPath.t
}.
End Ingress.

End extensions.

(** ** Package stack (translate.go) *)
Module stack.

Import model.

(** A Go result [(v, err)]: the value, or the error. *)
Inductive result (A : Type) : Type :=
| Ok (a : A)
| Err (msg : string).
Arguments Ok {A} a.
Arguments Err {A} msg.

(** What [registry.GetImageTagWithDigest] returns: the tag, the sentinel
    [errors.ErrNotFound], or any other error. *)
Inductive ImageTag :=
| TagWithDigest (tag : string)
| ErrNotFound
| LookupFailed (msg : string).

(** The arguments of a call of [build.Run] (the secrets are nil and the
    progress mode is the constant "tty"). *)
Module BuildRun.
Record t := mk {
  namespace : string;
  buildKitHost : string;
  isOktetoCluster : bool;
  context : string;
  dockerfile : string;
  image : string;
  target : string;
  noCache : bool;
  cacheFrom : list string;
  buildArgs : list string
}.
End BuildRun.

Inductive LogLevel := Infof | Information | Success | Warning.

(** What the translation does to the outside, in the order it does it. *)
Inductive Event :=
| EvGetImageTagWithDigest (namespace image : string)
| EvRun (r : BuildRun.t)
| EvLog (lvl : LogLevel) (msg : string).

(** The events that reach a collaborator: registry lookups and builds. *)
Definition isCall (e : Event) : bool :=
  match e with
  | EvLog _ _ => false
  | _ => true
  end.

Fixpoint calls (trace : list Event) : list Event :=
  match trace with
  | [] => []
  | e :: trace => if isCall e then e :: calls trace else calls trace
  end.

(** The outside of translate.go: the ambient environment and the file
    system, the registry, the build service, the clock, and the order in
    which the Go runtime ranges over a parsed env file.

    The registry and the build service have a state of their own, which
    the calls made to them change: a build pushes the image that a later
    lookup asks for.  What [GetImageTagWithDigest] and [Run] return is
    therefore a function of the calls made before, oldest first, and of
    the arguments of the call. *)
Module World.
Record t := mk {
  ExpandEnv : string → result string;
  Open : string → result string;
  StrictParse : string → result (gmap string string);
  rangeEnv : gmap string string → list (string * string);
  GetBuildKitHost : result (string * bool);
  GetImageTagWithDigest : list Event → string → string → ImageTag;
  Run : list Event → BuildRun.t → error;
  Now : list Event → string;
  SerializeBuildArgs : list EnvVar.t → list string
}.
End World.

(** *** sort.SliceStable

    A stable sort has one result for a given [less]; it is computed by
    insertion from the right, which keeps equal elements in their order. *)
Section SliceStable.
Context {A : Type} (less : A → A → bool).

Fixpoint insert (x : A) (l : list A) : list A :=
  match l with
  | [] => [x]
  | y :: l' => if less y x then y :: insert x l' else x :: l
  end.

Definition SliceStable (l : list A) : list A := foldr insert [] l.
End SliceStable.

(** The variables [translateBuildImages] reads and writes while it
    ranges over the services: the stack behind the pointer [s], the
    local [building], and the calls and log lines issued so far. *)
Module St.
Record t := mk {
  s : Stack.t;
  building : bool;
  trace : list Event
}.
End St.

Definition emit (e : Event) (st : St.t) : St.t :=
  St.mk (St.s st) (St.building st) (St.trace st ++ [e]).

(** [s.Services[name] = svc] *)
Definition store (name : string) (svc : Service.t) (st : St.t) : St.t :=
  St.mk (Stack.with_Services (St.s st)
           (<[name := svc]> (Stack.Services (St.s st))))
        (St.building st) (St.trace st).

Definition set_building (st : St.t) : St.t :=
  St.mk (St.s st) true (St.trace st).

Section translate.

Variable w : World.t.
Variable L : okLabels.t.

(** **** Environment *)

Definition translateServiceEnvFile (svc : Service.t) (filename : string)
    : result Service.t :=
  match World.ExpandEnv w filename with
  | Err err => Err err
  | Ok filename =>
      match World.Open w filename with
      | Err err => Err err
      | Ok f =>
          match World.StrictParse w f with
          | Err err =>
              Err ("error parsing env_file " +:+ filename +:+ ": " +:+ err)
          | Ok envMap =>
              let envMap :=
                foldl (λ m e, delete (EnvVar.Name e) m) envMap
                      (Service.Environment svc) in
              Ok (foldl
                    (λ svc '(name, value),
                       Service.with_Environment svc
                         (Service.Environment svc
                            ++ [EnvVar.mk name value]))
                    svc (World.rangeEnv w envMap))
          end
      end
  end.

(** [for _, envFilepath := range svc.EnvFiles] *)
Fixpoint translateStackEnvVars_files (svc : Service.t)
    (files : list string) : result Service.t :=
  match files with
  | [] => Ok svc
  | envFilepath :: files =>
      match translateServiceEnvFile svc envFilepath with
      | Err err => Err err
      | Ok svc => translateStackEnvVars_files svc files
      end
  end.

Definition lessName (a b : EnvVar.t) : bool :=
  bool_decide (strings.Compare (EnvVar.Name a) (EnvVar.Name b) < 0).

(** The body of [for name, svc := range s.Services] up to the store
    [s.Services[name] = svc]. *)
Definition translateStackEnvVars_service (svc : Service.t)
    : result Service.t :=
  match World.ExpandEnv w (Service.Image svc) with
  | Err err => Err err
  | Ok image =>
      let svc := Service.with_Image svc image in
      match translateStackEnvVars_files svc (Service.EnvFiles svc) with
      | Err err => Err err
      | Ok svc =>
          let svc :=
            Service.with_Environment svc
              (SliceStable lessName (Service.Environment svc)) in
          Ok (Service.with_EnvFiles svc [])
      end
  end.

Fixpoint translateStackEnvVars_range (order : list string) (s : Stack.t)
    : Stack.t * error :=
  match order with
  | [] => (s, None)
  | name :: order =>
      match Stack.Services s !! name with
      | Some svc =>
          match translateStackEnvVars_service svc with
          | Err err => (s, Some err)
          | Ok svc =>
              translateStackEnvVars_range order
                (Stack.with_Services s (<[name := svc]> (Stack.Services s)))
          end
      | None => translateStackEnvVars_range order s
      end
  end.

(** [translateStackEnvVars(s)]: the stack as it is left, and the error. *)
Definition translateStackEnvVars (order : list string) (s : Stack.t)
    : Stack.t * error :=
  translateStackEnvVars_range order s.

(** **** Builds *)

(** The image a service with a build is built as and looked up under:
    the two [if]s on [svc.Image] after the [svc.Build == nil] test. *)
Definition targetImage (isOktetoCluster : bool) (stackName name : string)
    (svc : Service.t) : Service.t :=
  if isOktetoCluster
     && negb (strings.HasPrefix (Service.Image svc) "okteto.dev")
  then Service.with_Image svc
         ("okteto.dev/" +:+ stackName +:+ "-" +:+ name +:+ ":okteto")
  else svc.

(** The call of [build.Run] and what follows it in the loop body. *)
Definition translateBuildImages_build (noCache : bool)
    (buildKitHost : string) (isOktetoCluster : bool)
    (name : string) (svc : Service.t) (b : BuildInfo.t) (st : St.t)
    : St.t * error :=
  let st :=
    if negb (St.building st)
    then emit (EvLog Information
                 ("Running your build in " +:+ buildKitHost +:+ "..."))
              (set_building st)
    else st in
  let st :=
    emit (EvLog Information
            ("Building image for service '" +:+ name +:+ "'...")) st in
  let buildArgs := World.SerializeBuildArgs w (BuildInfo.Args b) in
  let r :=
    BuildRun.mk (Stack.Namespace (St.s st)) buildKitHost isOktetoCluster
      (BuildInfo.Context b) (BuildInfo.Dockerfile b) (Service.Image svc)
      (BuildInfo.Target b) noCache (BuildInfo.CacheFrom b) buildArgs in
  let err := World.Run w (calls (St.trace st)) r in
  let st := emit (EvRun r) st in
  match err with
  | Some err =>
      (st, Some ("error building image for '" +:+ name +:+ "': " +:+ err))
  | None =>
      let svc :=
        SetLastBuiltAnnotation (okLabels.LastBuiltAnnotation L)
          (World.Now w (St.trace st)) svc in
      let st := store name svc st in
      (emit (EvLog Success
               ("Image for service '" +:+ name
                +:+ "' successfully pushed")) st,
       None)
  end.

(** The body of [for name, svc := range s.Services]: the state after
    it, and the error it returns with, if any. *)
Definition translateBuildImages_service (forceBuild noCache : bool)
    (buildKitHost : string) (isOktetoCluster : bool)
    (name : string) (svc : Service.t) (st : St.t) : St.t * error :=
  match Service.Build svc with
  | None => (st, None)
  | Some b =>
      if negb isOktetoCluster && bool_decide (Service.Image svc = "")
      then
        (st, Some ("'build' and 'image' fields of service '" +:+ name
                   +:+ "' cannot be empty"))
      else
        let svc :=
          targetImage isOktetoCluster (Stack.Name (St.s st)) name svc in
        if negb forceBuild
        then
          let tag :=
            World.GetImageTagWithDigest w (calls (St.trace st))
              (Stack.Namespace (St.s st)) (Service.Image svc) in
          let st :=
            emit (EvGetImageTagWithDigest (Stack.Namespace (St.s st))
                    (Service.Image svc)) st in
          match tag with
          | ErrNotFound =>
              let st :=
                emit (EvLog Infof
                        ("image '" +:+ Service.Image svc
                         +:+ "' not found, building it")) st in
              translateBuildImages_build noCache buildKitHost
                isOktetoCluster name svc b st
          | _ => (store name svc st, None)
          end
        else
          translateBuildImages_build noCache buildKitHost
            isOktetoCluster name svc b st
  end.

Fixpoint translateBuildImages_range (forceBuild noCache : bool)
    (buildKitHost : string) (isOktetoCluster : bool)
    (order : list string) (st : St.t) : St.t * error :=
  match order with
  | [] => (st, None)
  | name :: order =>
      match Stack.Services (St.s st) !! name with
      | Some svc =>
          match translateBuildImages_service forceBuild noCache
                  buildKitHost isOktetoCluster name svc st with
          | (st, Some err) => (st, Some err)
          | (st, None) =>
              translateBuildImages_range forceBuild noCache
                buildKitHost isOktetoCluster order st
          end
      | None =>
          translateBuildImages_range forceBuild noCache
            buildKitHost isOktetoCluster order st
      end
  end.

Definition translateBuildImages (forceBuild noCache : bool)
    (order : list string) (s : Stack.t) : St.t * error :=
  match World.GetBuildKitHost w with
  | Err err => (St.mk s false [], Some err)
  | Ok (buildKitHost, isOktetoCluster) =>
      match translateBuildImages_range forceBuild noCache buildKitHost
              isOktetoCluster order (St.mk s false []) with
      | (st, Some err) => (st, Some err)
      | (st, None) =>
          let st :=
            if negb (St.building st) && forceBuild
            then emit (EvLog Warning
                         "Ignoring '--build' argument. There are not 'build' primitives in your stack")
                      st
            else st in
          (st, None)
      end
  end.

(** [translate]: [envOrder] and [buildOrder] are the orders of the two
    visits of [s.Services]. *)
Definition translate (forceBuild noCache : bool)
    (envOrder buildOrder : list string) (s : Stack.t) : St.t * error :=
  match translateStackEnvVars envOrder s with
  | (s, Some err) => (St.mk s false [], Some err)
  | (s, None) => translateBuildImages forceBuild noCache buildOrder s
  end.

End translate.

(** *** Resources *)

Definition pvcName : string := "pvc".

(** [for k, v := range src { dst[k] = v }], visiting [src] in [order]. *)
Definition rangeInto (order : list (string * string))
    (dst : gmap string string) : gmap string string :=
  foldl (λ m '(k, v), <[k := v]> m) dst order.

Section resources.

Variable L : okLabels.t.

Definition translateLabels (svcName : string) (s : Stack.t)
    : gmap string string :=
  let svc := default Service.zero (Stack.Services s !! svcName) in
  let labels : gmap string string :=
    {[ okLabels.StackNameLabel L := Stack.Name s;
       okLabels.StackServiceNameLabel L := svcName ]} in
  rangeInto (map_to_list (Service.Labels svc)) labels.


Definition translateLabelSelector (svcName : string) (s : Stack.t)
    : gmap string string :=
  {[ okLabels.StackNameLabel L := Stack.Name s;
     okLabels.StackServiceNameLabel L := svcName ]}.

Definition translateAnnotations (svc : Service.t) : gmap string string :=
  rangeInto (map_to_list (Service.Annotations svc)) ∅.

Definition translateServiceType (svc : Service.t) : apiv1.ServiceType :=
  if Service.Public svc
  then apiv1.ServiceTypeLoadBalancer
  else apiv1.ServiceTypeClusterIP.

Definition translateVolumeMounts (svc : Service.t)
    : list apiv1.VolumeMount.t :=
  imap (λ i v, apiv1.VolumeMount.mk v pvcName
                 ("data-" +:+ pretty (Z.of_nat i)))
       (Service.Volumes svc).

Definition translateSecurityContext (svc : Service.t)
    : option apiv1.Capabilities.t :=
  if decide (length (Service.CapAdd svc) = 0%nat
             ∧ length (Service.CapDrop svc) = 0%nat)
  then None
  else
    Some (apiv1.Capabilities.mk
            (if decide (0 < length (Service.CapAdd svc))%nat
             then Service.CapAdd svc else [])
            (if decide (0 < length (Service.CapDrop svc))%nat
             then Service.CapDrop svc else [])).

Definition translateStorageClass (svc : Service.t) : option string :=
  let class :=
    StorageResource.Class
      (ServiceResources.Storage
         (StackResources.Requests (Service.Resources svc))) in
  if decide (class ≠ "") then Some class else None.

Definition translateServiceEnvironment (svc : Service.t)
    : list apiv1.EnvVar.t :=
  (λ e, apiv1.EnvVar.mk (EnvVar.Name e) (EnvVar.Value e))
    <$> Service.Environment svc.

Definition translateContainerPorts (svc : Service.t) : list Z :=
  (λ p, p) <$> Service.Ports svc.

Definition translateServicePorts (svc : Service.t)
    : list apiv1.ServicePort.t :=
  (λ p, apiv1.ServicePort.mk ("p-" +:+ pretty p) p p)
    <$> Service.Ports svc.

(** [result.Limits], a local of [translateResources], after each of its
    four [if]s.  [Some {[k := v]}] is [result.Limits = ResourceList{}]
    followed by the write; [default ∅ limits] is the test
    [result.Limits == nil]. *)
Definition translateResources (svc : Service.t)
    : apiv1.ResourceRequirements.t :=
  let lim := StackResources.Limits (Service.Resources svc) in
  let req := StackResources.Requests (Service.Resources svc) in
  let cpu r := Quantity.Value (ServiceResources.CPU r) in
  let memory r := Quantity.Value (ServiceResources.Memory r) in
  let limits : apiv1.ResourceList := None in
  let limits : apiv1.ResourceList :=
    if decide (Quantity.Cmp (cpu lim) Quantity.zero > 0)
    then Some (<[apiv1.ResourceCPU := cpu lim]> ∅)
    else limits in
  let limits : apiv1.ResourceList :=
    if decide (Quantity.Cmp (memory lim) Quantity.zero > 0)
    then Some (<[apiv1.ResourceMemory := memory lim]> (default ∅ limits))
    else limits in
  let limits : apiv1.ResourceList :=
    if decide (Quantity.Cmp (cpu req) Quantity.zero > 0)
    then Some (<[apiv1.ResourceCPU := cpu req]> ∅)
    else limits in
  let limits : apiv1.ResourceList :=
    if decide (Quantity.Cmp (memory req) Quantity.zero > 0)
    then Some (<[apiv1.ResourceMemory := memory req]> (default ∅ limits))
    else limits in
  apiv1.ResourceRequirements.mk limits None.

Definition translateDeployment (svcName : string) (s : Stack.t)
    : appsv1.Deployment.t :=
  let svc := default Service.zero (Stack.Services s !! svcName) in
  appsv1.Deployment.mk
    (apiv1.ObjectMeta.mk svcName (Stack.Namespace s)
       (translateLabels svcName s) (translateAnnotations svc))
    (Service.Replicas svc)
    (translateLabelSelector svcName s)
    (apiv1.PodTemplateSpec.mk
       (translateLabels svcName s) (translateAnnotations svc)
       (Service.StopGracePeriod svc)
       []
       [apiv1.Container.mk svcName (Service.Image svc)
          (Service.Command svc) (Service.Args svc)
          (translateServiceEnvironment svc)
          (translateContainerPorts svc)
          (translateSecurityContext svc)
          []
          (translateResources svc)]).

Definition translateStatefulSet (name : string) (s : Stack.t)
    : appsv1.StatefulSet.t :=
  let svc := default Service.zero (Stack.Services s !! name) in
  appsv1.StatefulSet.mk
    (apiv1.ObjectMeta.mk name (Stack.Namespace s)
       (translateLabels name s) (translateAnnotations svc))
    (Service.Replicas svc)
    2
    (translateLabelSelector name s)
    name
    (apiv1.PodTemplateSpec.mk
       (translateLabels name s) (translateAnnotations svc)
       (Service.StopGracePeriod svc)
       [apiv1.Container.mk ("init-" +:+ name) "busybox"
          ["chmod"; "-R"; "777"; "/data"] [] [] [] None
          [apiv1.VolumeMount.mk "/data" pvcName ""]
          (apiv1.ResourceRequirements.mk None None)]
       [apiv1.Container.mk name (Service.Image svc)
          (Service.Command svc) (Service.Args svc)
          (translateServiceEnvironment svc)
          (translateContainerPorts svc)
          (translateSecurityContext svc)
          (translateVolumeMounts svc)
          (translateResources svc)])
    [apiv1.PersistentVolumeClaim.mk
       (apiv1.ObjectMeta.mk pvcName ""
          (translateLabels name s) (translateAnnotations svc))
       ["ReadWriteOnce"]
       {[ "storage" :=
            Quantity.Value
              (StorageResource.Size
                 (ServiceResources.Storage
                    (StackResources.Requests (Service.Resources svc)))) ]}
       (translateStorageClass svc)].

Definition translateService (svcName : string) (s : Stack.t)
    : apiv1.Service.t :=
  let svc := default Service.zero (Stack.Services s !! svcName) in
  let annotations := translateAnnotations svc in
  let annotations :=
    if Service.Public svc
    then <[okLabels.OktetoAutoIngressAnnotation L := "true"]> annotations
    else annotations in
  apiv1.Service.mk
    (apiv1.ObjectMeta.mk svcName (Stack.Namespace s)
       (translateLabels svcName s) annotations)
    (translateLabelSelector svcName s)
    (translateServiceType svc)
    (translateServicePorts svc).

End resources.

(** *** Ingresses *)



End stack.

(** ** Notions used to state the properties of the environment merge *)
Module env.

Import model stack.

(** The entries of an environment that define [n], in their order. *)
Definition byName (n : string) (l : list EnvVar.t) : list EnvVar.t :=
  filter (λ e, EnvVar.Name e = n) l.

Definition names (l : list EnvVar.t) : list string := EnvVar.Name <$> l.

(** The value of [n] in the first of the maps [ms] that defines it. *)
Fixpoint firstValue (ms : list (gmap string string)) (n : string)
    : option string :=
  match ms with
  | [] => None
  | m :: ms =>
      match m !! n with
      | Some v => Some v
      | None => firstValue ms n
      end
  end.

(** The env file [filename] is found and parses as the map [m]. *)
Definition parses (w : World.t) (filename : string)
    (m : gmap string string) : Prop :=
  ∃ expanded f,
    World.ExpandEnv w filename = Ok expanded
    ∧ World.Open w expanded = Ok f
    ∧ World.StrictParse w f = Ok m.

(** Ascending by name: no entry is followed, at any distance, by an entry
    whose name compares below its own. *)
Definition sortedByName (l : list EnvVar.t) : Prop :=
  StronglySorted
    (λ a b, strings.Compare (EnvVar.Name a) (EnvVar.Name b) ≤ 0) l.

End env.

(** ** Notions used to state the properties of the build loop *)
Module events.

Import model stack.

(** The image a call is about. *)
Definition image (e : Event) : option string :=
  match e with
  | EvGetImageTagWithDigest _ image => Some image
  | EvRun r => Some (BuildRun.image r)
  | EvLog _ _ => None
  end.

Definition isRun (e : Event) : bool :=
  match e with
  | EvRun _ => true
  | _ => false
  end.

(** The request [build.Run] is called with for [svc] and its build [b]. *)
Definition runOf (w : World.t) (noCache : bool) (buildKitHost : string)
    (isOktetoCluster : bool) (namespace : string) (svc : Service.t)
    (b : BuildInfo.t) : BuildRun.t :=
  BuildRun.mk namespace buildKitHost isOktetoCluster
    (BuildInfo.Context b) (BuildInfo.Dockerfile b) (Service.Image svc)
    (BuildInfo.Target b) noCache (BuildInfo.CacheFrom b)
    (World.SerializeBuildArgs w (BuildInfo.Args b)).

(** Whether the loop body goes on to [build.Run], given [forceBuild] and
    what the registry returns. *)
Definition builds (forceBuild : bool) (tag : ImageTag) : bool :=
  forceBuild || match tag with ErrNotFound => true | _ => false end.

(** The calls a visit of the service declared as [name] in [s] consists
    of, when the calls made before it are [hist]: none for a service
    without a build, and none for one that is refused for its missing
    image; otherwise the lookup of the target image, unless [forceBuild]
    is set, and then the build of that image, if [forceBuild] is set or
    the registry answers [ErrNotFound]. *)
Definition serviceCalls (w : World.t)
    (forceBuild noCache : bool) (buildKitHost : string)
    (isOktetoCluster : bool) (s : Stack.t) (hist : list Event)
    (name : string) : list Event :=
  match Stack.Services s !! name with
  | Some svc =>
      match Service.Build svc with
      | Some b =>
          if negb isOktetoCluster && bool_decide (Service.Image svc = "")
          then []
          else
            let target := targetImage isOktetoCluster (Stack.Name s) name svc in
            let lookup :=
              EvGetImageTagWithDigest (Stack.Namespace s)
                (Service.Image target) in
            let run :=
              EvRun (runOf w noCache buildKitHost isOktetoCluster
                       (Stack.Namespace s) target b) in
            if forceBuild then [run]
            else
              match World.GetImageTagWithDigest w hist (Stack.Namespace s)
                      (Service.Image target) with
              | ErrNotFound => [lookup; run]
              | _ => [lookup]
              end
      | None => []
      end
  | None => []
  end.

(** The calls of the visits of the services [visited], one service after
    the other, after the calls [hist]. *)
Fixpoint visitCalls (w : World.t)
    (forceBuild noCache : bool) (buildKitHost : string)
    (isOktetoCluster : bool) (s : Stack.t) (hist : list Event)
    (visited : list string) : list Event :=
  match visited with
  | [] => hist
  | name :: visited =>
      visitCalls w forceBuild noCache buildKitHost isOktetoCluster s
        (hist ++ serviceCalls w forceBuild noCache buildKitHost
                   isOktetoCluster s hist name)
        visited
  end.

Definition isLookup (e : Event) : bool :=
  match e with
  | EvGetImageTagWithDigest _ _ => true
  | _ => false
  end.

End events.

(** ** Notions used to state the properties of validation and of the loops *)
Module shape.

(** A volume [validate] lets through: absolute, and without a colon. *)
Definition volumeOk (v : string) : Prop :=
  strings.HasPrefix v "/" = true ∧ strings.Contains v ":" = false.

(** Ranging over the map [m] in [order] visits every key of [m]. *)
Definition covers {A} (order : list string) (m : gmap string A) : Prop :=
  ∀ name, is_Some (m !! name) → name ∈ order.

End shape.

(** ** Sample values

    Concrete manifests, and concrete stand-ins for what the translated files
    take from elsewhere, on which the statements below are evaluated. *)
Module sample.

Import model.

(** Modelled from the spec: [setBuildDefaults] is defined in a file of the
    package that is not among the translated ones.  The specification has
    it default an unset dockerfile to "Dockerfile" relative to the
    context, and leave an unset target unset. *)
Definition setBuildDefaults (b : BuildInfo.t) : BuildInfo.t :=
  if decide (BuildInfo.Dockerfile b = "")
  then BuildInfo.with_Dockerfile b
         (if decide (BuildInfo.Context b = "") then "Dockerfile"
          else BuildInfo.Context b +:+ "/Dockerfile")
  else b.

(** A service with [entrypoint: [a]] and [command: [b]]. *)
Definition svc_entrypoint : Service.t :=
  Service.with_Command (Service.with_Entrypoint Service.zero ["a"]) ["b"].

(** A service with [ports: [80]] and [expose: [8080]]. *)
Definition svc_expose : Service.t :=
  Service.with_Expose (Service.with_Ports Service.zero [80]) [8080].

(** A service with [entrypoint: [a]], [command: [b]], [ports: [80]] and
    [expose: [8080]]. *)
Definition svc_entrypoint_expose : Service.t :=
  Service.with_Expose (Service.with_Ports svc_entrypoint [80]) [8080].

(** A service with an image and nothing else. *)
Definition svc_plain : Service.t := Service.with_Image Service.zero "nginx".

(** A stand-in for [fmt.Errorf] given a format and no operands, for the
    texts of the sample manifests, none of which holds a '%': package fmt
    returns such a text as it is. *)
Definition Errorf (format : string) : string := format.

(** Modelled from the spec: [ValidKubeNameRegex] is declared in a file of
    the package that is not among the translated ones.  The specification
    allows lowercase alphanumeric characters and '-' in a name; the
    expression matches a name that has any other character. *)
Definition nameChar (c : Ascii.ascii) : bool :=
  let n := Ascii.N_of_ascii c in
  ((97 <=? n) && (n <=? 122) || (48 <=? n) && (n <=? 57) || (n =? 45))%N.

Fixpoint ValidKubeNameRegex_MatchString (name : string) : bool :=
  match name with
  | EmptyString => false
  | String c name => negb (nameChar c) || ValidKubeNameRegex_MatchString name
  end.

(** A service with image nginx that declares port 80. *)
Definition svc_web : Service.t :=
  Service.with_Ports (Service.with_Image Service.zero "nginx") [80].

(** One service "web", and one endpoint group "main" routing "/" to port
    [port] of "web". *)
Definition stack_web (port : Z) : Stack.t :=
  Stack.mk "app" "" {[ "web" := svc_web ]}
    {[ "main" := [Endpoint.mk "/" "web" port] ]} "".

(** The same, with the endpoint routed to a service "api" that is not
    declared. *)
Definition stack_missing : Stack.t :=
  Stack.mk "app" "" {[ "web" := svc_web ]}
    {[ "main" := [Endpoint.mk "/" "api" 80] ]} "".

Import stack.

(** A world with two env files, a.env holding FOO=1 and b.env holding
    FOO=2, in which nothing is expanded, every build succeeds and the
    clock stands still.  [isOktetoCluster] and the registry are left to
    the use. *)
Definition world (isOktetoCluster : bool)
    (lookup : list Event → string → string → ImageTag) : World.t :=
  World.mk
    (λ s, Ok s)
    (λ filename,
       if decide (filename = "a.env") then Ok "FOO=1"
       else if decide (filename = "b.env") then Ok "FOO=2"
       else Err ("open " +:+ filename +:+ ": no such file or directory"))
    (λ f,
       if decide (f = "FOO=1") then Ok {[ "FOO" := "1" ]}
       else if decide (f = "FOO=2") then Ok {[ "FOO" := "2" ]}
       else Err "line doesn't match format")
    map_to_list
    (Ok ("tcp://buildkit.okteto.net:1234", isOktetoCluster))
    lookup
    (λ _ _, None)
    (λ _, "2020-10-01T00:00:00")
    (λ args, (λ e, EnvVar.Name e +:+ "=" +:+ EnvVar.Value e) <$> args).

Definition labels : okLabels.t :=
  okLabels.mk "stack.okteto.com" "stack.okteto.com/name"
    "stack.okteto.com/service" "stack.okteto.com/endpoint"
    "dev.okteto.com/auto-ingress" "dev.okteto.com/last-built".

(** [env_file: [a.env, b.env]] and no explicit environment. *)
Definition svc_two_files : Service.t :=
  Service.with_EnvFiles svc_plain ["a.env"; "b.env"].

(** The same, with [environment: [ZED=z, FOO=0]]. *)
Definition svc_explicit : Service.t :=
  Service.with_Environment svc_two_files
    [EnvVar.mk "ZED" "z"; EnvVar.mk "FOO" "0"].

Definition build_here : BuildInfo.t :=
  BuildInfo.mk "" "." "Dockerfile" "" [] [].

(** [build: .] with [image: registry/api]. *)
Definition svc_api : Service.t :=
  Service.with_Build (Service.with_Image Service.zero "registry/api")
    (Some build_here).

(** [build: .] and no image. *)
Definition svc_build_only : Service.t :=
  Service.with_Build Service.zero (Some build_here).

Definition stack_api : Stack.t :=
  Stack.mk "app" "dev" {[ "api" := svc_api ]} ∅ "".

(** [build: .] with [image: okteto.dev.evil.io/api], an image of the
    registry okteto.dev.evil.io, not of okteto.dev. *)
Definition svc_evil : Service.t :=
  Service.with_Build
    (Service.with_Image Service.zero "okteto.dev.evil.io/api")
    (Some build_here).

Definition stack_evil : Stack.t :=
  Stack.mk "app" "dev" {[ "api" := svc_evil ]} ∅ "".

(** Two services, "a" and "b", built from the same context into the same
    image. *)
Definition svc_shared : Service.t :=
  Service.with_Build (Service.with_Image Service.zero "registry/shared")
    (Some build_here).

Definition stack_shared : Stack.t :=
  Stack.mk "app" "dev" {[ "a" := svc_shared; "b" := svc_shared ]} ∅ "".

(** A registry that starts empty and holds the images that the builds run
    so far have pushed. *)
Definition pushed (hist : list Event) (namespace image : string) : ImageTag :=
  if existsb
       (λ e, match e with
             | EvRun r => bool_decide (BuildRun.image r = image)
             | _ => false
             end) hist
  then TagWithDigest (image +:+ "@sha256:0a1b")
  else ErrNotFound.

(** Two services, "a" and "b", each with a build and no image. *)
Definition stack_ab : Stack.t :=
  Stack.mk "app" "dev"
    {[ "a" := svc_build_only; "b" := svc_build_only ]} ∅ "".

(** A service that declares the CPU and memory limits [lc] and [lm] and
    the CPU and memory requests [rc] and [rm]. *)
Definition svc_resources (lc lm rc rm : Z) : Service.t :=
  let storage := StorageResource.mk (Quantity.mk 0) "" in
  Service.with_Resources svc_plain
    (StackResources.mk
       (ServiceResources.mk (Quantity.mk lc) (Quantity.mk lm) storage)
       (ServiceResources.mk (Quantity.mk rc) (Quantity.mk rm) storage)).

(** A service whose labels use the key of the stack-name label. *)
Definition svc_labelled : Service.t :=
  Service.with_Labels svc_plain
    {[ "stack.okteto.com/name" := "other"; "tier" := "web" ]}.

Definition stack_labelled : Stack.t :=
  Stack.mk "app" "dev" {[ "web" := svc_labelled ]} ∅ "".

(** A service whose env file does not exist. *)
Definition svc_missing_file : Service.t :=
  Service.with_EnvFiles svc_plain ["missing.env"].

(** "a" reads a.env and b.env, "b" reads them and has an explicit
    environment. *)
Definition stack_env : Stack.t :=
  Stack.mk "app" "dev" {[ "a" := svc_two_files; "b" := svc_explicit ]} ∅ "".

Definition stack_missing_file : Stack.t :=
  Stack.mk "app" "dev" {[ "a" := svc_missing_file ]} ∅ "".

(** The world [world false lookup], but with a build service on which every
    build fails. *)
Definition world_build_fails
    (lookup : list Event → string → string → ImageTag) : World.t :=
  let w := world false lookup in
  World.mk (World.ExpandEnv w) (World.Open w) (World.StrictParse w)
    (World.rangeEnv w) (World.GetBuildKitHost w)
    (World.GetImageTagWithDigest w)
    (λ _ _, Some "exit code: 1")
    (World.Now w) (World.SerializeBuildArgs w).

End sample.

(** * Properties *)

Import model.

(** ** ReadStack *)

Section ReadStack_facts.

Variable setBuildDefaults : BuildInfo.t → BuildInfo.t.

Local Abbreviation body := (ReadStack_service setBuildDefaults).

(** The loop stores the body's result under every key it visits, whatever
    the order of the visit. *)
Lemma ReadStack_range_lookup order (m : gmap string Service.t) name :
  NoDup order →
  ReadStack_range setBuildDefaults order m !! name
  = if decide (name ∈ order) then body <$> m !! name else m !! name.
Proof.
  revert m. induction order as [|i order IH]; intros m Hnd.
  - case_decide; [set_solver|done].
  - apply NoDup_cons in Hnd as [Hi Hnd]. cbn [ReadStack_range].
    assert (name ∈ i :: order ↔ name = i ∨ name ∈ order) as Hin by set_solver.
    destruct (m !! i) as [svc|] eqn:Hmi; rewrite IH by done;
      destruct (decide (name = i)) as [->|Hne];
      repeat case_decide; try tauto.
    + by rewrite lookup_insert_eq, Hmi.
    + by rewrite lookup_insert_ne.
    + by rewrite lookup_insert_ne.
    + by rewrite Hmi.
Qed.

Lemma ReadStack_range_fmap order (m : gmap string Service.t) :
  NoDup order → (∀ i, is_Some (m !! i) → i ∈ order) →
  ReadStack_range setBuildDefaults order m = body <$> m.
Proof.
  intros Hnd Hall. apply map_eq. intros i.
  rewrite ReadStack_range_lookup, lookup_fmap by done.
  case_decide as Hi; [done|].
  destruct (m !! i) eqn:Hmi; [|done].
  destruct Hi. apply Hall. by rewrite Hmi.
Qed.

(** The body, field by field. *)
Lemma ReadStack_service_eq svc :
  body svc
  = Service.mk (Service.Labels svc) (Service.Annotations svc)
      (if decide ((0 < length (Service.Expose svc))%nat
                  ∧ length (Service.Ports svc) = 0%nat)
       then false else Service.Public svc)
      (Service.Image svc)
      (ReadStack_build setBuildDefaults <$> Service.Build svc)
      (if decide (Service.Replicas svc = 0) then 1 else Service.Replicas svc)
      (Service.Entrypoint svc)
      (if decide (0 < length (Service.Entrypoint svc))%nat
       then Service.Entrypoint svc else Service.Command svc)
      (if decide (0 < length (Service.Entrypoint svc))%nat
       then Service.Command svc else Service.Args svc)
      (Service.Environment svc) (Service.EnvFiles svc)
      (Service.CapAdd svc) (Service.CapDrop svc) (Service.Healthchecks svc)
      (if decide (0 < length (Service.Expose svc))%nat
       then Service.Ports svc ++ Service.Expose svc else Service.Ports svc)
      (Service.Expose svc) (Service.Volumes svc)
      (Service.StopGracePeriod svc) (Service.Resources svc).
Proof.
  destruct svc as
    [lbl ann pub img bld rep ent cmd args env files ca cd hc ports exp
       vols grace res].
  unfold ReadStack_service.
  destruct bld as [b|]; simpl; repeat (case_decide; simpl);
    first [reflexivity | exfalso; tauto | exfalso; lia].
Qed.

Lemma ReadStack_service_Command svc :
  Service.Command (body svc)
  = if decide (0 < length (Service.Entrypoint svc))%nat
    then Service.Entrypoint svc else Service.Command svc.
Proof.
  by rewrite ReadStack_service_eq.
Qed.

Lemma ReadStack_service_Args svc :
  Service.Args (body svc)
  = if decide (0 < length (Service.Entrypoint svc))%nat
    then Service.Command svc else Service.Args svc.
Proof.
  by rewrite ReadStack_service_eq.
Qed.

Lemma ReadStack_service_Entrypoint svc :
  Service.Entrypoint (body svc) = Service.Entrypoint svc.
Proof.
  by rewrite ReadStack_service_eq.
Qed.

Lemma ReadStack_service_Expose svc :
  Service.Expose (body svc) = Service.Expose svc.
Proof.
  by rewrite ReadStack_service_eq.
Qed.

Lemma ReadStack_service_Ports svc :
  Service.Ports (body svc)
  = if decide (0 < length (Service.Expose svc))%nat
    then Service.Ports svc ++ Service.Expose svc else Service.Ports svc.
Proof.
  by rewrite ReadStack_service_eq.
Qed.

End ReadStack_facts.

Section ReadStack_claims.

Variable setBuildDefaults : BuildInfo.t → BuildInfo.t.

Local Abbreviation body := (ReadStack_service setBuildDefaults).

(** C7: a service whose entrypoint is [a] and whose command is [b] leaves
    the defaulting pass of [ReadStack] with command [a] and args [b],
    under whatever name it is declared and in whatever order the services
    are visited. *)
Theorem ReadStack_entrypoint_command order s name svc a b :
  NoDup order → name ∈ order →
  Stack.Services s !! name = Some svc →
  Service.Entrypoint svc = [a] → Service.Command svc = [b] →
  ∃ svc',
    Stack.Services (ReadStack_defaults setBuildDefaults order s) !! name
      = Some svc'
    ∧ svc' = body svc
    ∧ Service.Command svc' = [a] ∧ Service.Args svc' = [b].
Proof.
  intros Hnd Hin Hsvc Ha Hb. exists (body svc). simpl.
  rewrite ReadStack_range_lookup by done. rewrite decide_True, Hsvc by done.
  rewrite ReadStack_service_Command, ReadStack_service_Args, Ha, Hb.
  done.
Qed.

Lemma ReadStack_build_twice b :
  (∀ b, setBuildDefaults (setBuildDefaults b) = setBuildDefaults b) →
  (∀ b, BuildInfo.Name (setBuildDefaults b) = BuildInfo.Name b) →
  ReadStack_build setBuildDefaults (ReadStack_build setBuildDefaults b)
  = ReadStack_build setBuildDefaults b.
Proof.
  intros Hidem Hname. unfold ReadStack_build at 1.
  assert (BuildInfo.Name (ReadStack_build setBuildDefaults b) = "") as Hn.
  { unfold ReadStack_build. rewrite Hname.
    case_decide as Hd; [done|]. by destruct (decide (BuildInfo.Name b = "")). }
  rewrite decide_False by (rewrite Hn; intros Hne; by apply Hne).
  unfold ReadStack_build. apply Hidem.
Qed.

(** When a second run of the body leaves the result of a first run as it
    is, in terms of the service the first run started from. *)
Lemma ReadStack_service_again svc :
  (∀ b, setBuildDefaults (setBuildDefaults b) = setBuildDefaults b) →
  (∀ b, BuildInfo.Name (setBuildDefaults b) = BuildInfo.Name b) →
  body (body svc) = body svc
  ↔ (Service.Entrypoint svc = [] ∨ Service.Command svc = Service.Entrypoint svc)
    ∧ Service.Expose svc = [].
Proof.
  intros Hidem Hname. split.
  - intros Heq. split.
    + pose proof (f_equal Service.Args Heq) as HA.
      rewrite !ReadStack_service_Args, !ReadStack_service_Entrypoint,
        ReadStack_service_Command in HA.
      destruct (Service.Entrypoint svc) as [|e es] eqn:He; [by left|right].
      rewrite !decide_True in HA by (simpl; lia). done.
    + pose proof (f_equal Service.Ports Heq) as HP.
      rewrite !ReadStack_service_Ports, !ReadStack_service_Expose in HP.
      destruct (Service.Expose svc) as [|x xs] eqn:He; [done|].
      rewrite !decide_True in HP by (simpl; lia).
      apply (f_equal length) in HP. rewrite !length_app in HP.
      simpl in HP. lia.
  - intros [Hent Hexp]. rewrite (ReadStack_service_eq _ (body svc)).
    rewrite (ReadStack_service_eq _ svc). cbn [Service.Labels
      Service.Annotations Service.Public Service.Image Service.Build
      Service.Replicas Service.Entrypoint Service.Command Service.Args
      Service.Environment Service.EnvFiles Service.CapAdd Service.CapDrop
      Service.Healthchecks Service.Ports Service.Expose Service.Volumes
      Service.StopGracePeriod Service.Resources].
    rewrite Hexp. cbn [length]. f_equal.
    + destruct (Service.Build svc) as [b|]; [|done].
      cbn [fmap option_fmap option_map].
      by rewrite ReadStack_build_twice.
    + repeat case_decide; lia.
    + by repeat case_decide.
    + destruct Hent as [Hent|Hent]; rewrite Hent; repeat case_decide;
        simpl in *; first [done | lia].
Qed.

(** The same, in terms of the defaulted service [d], and what the second
    run does to its command, args and ports. *)
Lemma ReadStack_service_defaulted svc d :
  (∀ b, setBuildDefaults (setBuildDefaults b) = setBuildDefaults b) →
  (∀ b, BuildInfo.Name (setBuildDefaults b) = BuildInfo.Name b) →
  d = body svc →
  (body d = d
   ↔ (Service.Entrypoint d = [] ∨ Service.Args d = Service.Entrypoint d)
     ∧ Service.Expose d = [])
  ∧ (Service.Entrypoint d ≠ [] →
     Service.Command d = Service.Entrypoint d
     ∧ Service.Command (body d) = Service.Command d
     ∧ Service.Args (body d) = Service.Command d)
  ∧ (Service.Entrypoint d = [] →
     Service.Command (body d) = Service.Command d
     ∧ Service.Args (body d) = Service.Args d)
  ∧ Service.Ports (body d) = Service.Ports d ++ Service.Expose d.
Proof.
  intros Hidem Hname ->. split; [|split; [|split]].
  - rewrite ReadStack_service_again by done.
    rewrite ReadStack_service_Entrypoint, ReadStack_service_Expose,
      ReadStack_service_Args.
    destruct (Service.Entrypoint svc) as [|e es]; [tauto|].
    rewrite decide_True by (simpl; lia).
    split; (intros [[?|?] ?]; [done|]; (split; [by right|done])).
  - repeat first [ rewrite ReadStack_service_Args
                 | rewrite ReadStack_service_Command
                 | rewrite ReadStack_service_Entrypoint ].
    destruct (Service.Entrypoint svc) as [|e es]; [done|].
    rewrite !decide_True by (simpl; lia). done.
  - repeat first [ rewrite ReadStack_service_Args
                 | rewrite ReadStack_service_Command
                 | rewrite ReadStack_service_Entrypoint ].
    intros ->. by rewrite !decide_False by (simpl; lia).
  - rewrite (ReadStack_service_Ports _ (body svc)), ReadStack_service_Expose.
    destruct (Service.Expose svc) as [|x xs].
    + rewrite decide_False by (simpl; lia). by rewrite app_nil_r.
    + by rewrite decide_True by (simpl; lia).
Qed.

(** C3 (amended): the defaulting pass is not idempotent.  A second run of
    the loop over a defaulted stack leaves it as it is exactly when every
    service of the defaulted stack has no expose entries and an entrypoint
    that is empty or equal to its args.  Service by service: a service
    with an entrypoint, whose command the first run has made the
    entrypoint, gets that command as its args and keeps it as its command;
    and the expose entries of a service are appended to its ports once
    more. *)
Theorem ReadStack_defaults_twice order s :
  (∀ b, setBuildDefaults (setBuildDefaults b) = setBuildDefaults b) →
  (∀ b, BuildInfo.Name (setBuildDefaults b) = BuildInfo.Name b) →
  NoDup order → shape.covers order (Stack.Services s) →
  let s1 := ReadStack_defaults setBuildDefaults order s in
  let s2 := ReadStack_defaults setBuildDefaults order s1 in
  let settled (d : Service.t) :=
    (Service.Entrypoint d = [] ∨ Service.Args d = Service.Entrypoint d)
    ∧ Service.Expose d = [] in
  (s2 = s1 ↔ ∀ name d, Stack.Services s1 !! name = Some d → settled d)
  ∧ ∀ name d, Stack.Services s1 !! name = Some d →
      ∃ d',
        Stack.Services s2 !! name = Some d'
        ∧ (d' = d ↔ settled d)
        ∧ (Service.Entrypoint d ≠ [] →
           Service.Command d = Service.Entrypoint d
           ∧ Service.Command d' = Service.Command d
           ∧ Service.Args d' = Service.Command d)
        ∧ (Service.Entrypoint d = [] →
           Service.Command d' = Service.Command d
           ∧ Service.Args d' = Service.Args d)
        ∧ Service.Ports d' = Service.Ports d ++ Service.Expose d.
Proof.
  intros Hidem Hname Hnd Hcov. cbv zeta.
  set (m := Stack.Services s).
  assert (ReadStack_range setBuildDefaults order m = body <$> m) as Hr1
    by (by apply ReadStack_range_fmap).
  assert (ReadStack_range setBuildDefaults order (body <$> m)
          = body <$> (body <$> m)) as Hr2.
  { apply ReadStack_range_fmap; [done|].
    intros i. rewrite lookup_fmap, fmap_is_Some. apply Hcov. }
  assert (∀ name d,
            (body <$> m) !! name = Some d →
            ∃ svc, m !! name = Some svc ∧ d = body svc) as Hfrom.
  { intros name d. rewrite lookup_fmap.
    destruct (m !! name) as [svc|]; [|done].
    intros [= <-]. by exists svc. }
  unfold ReadStack_defaults, Stack.with_Services.
  cbn [Stack.Services Stack.Name Stack.Namespace Stack.Endpoints
         Stack.Manifest].
  fold m. rewrite Hr1, Hr2. split.
  - split.
    + intros Heq name d Hd.
      destruct (Hfrom name d Hd) as (svc & Hsvc & ->).
      apply (ReadStack_service_defaulted svc); [done..|].
      apply (f_equal Stack.Services) in Heq.
      cbn [Stack.Services] in Heq.
      apply (f_equal (λ m : gmap string Service.t, m !! name)) in Heq.
      cbv beta in Heq.
      rewrite !lookup_fmap, Hsvc in Heq.
      cbn [fmap option_fmap option_map] in Heq. exact (inj Some _ _ Heq).
    + intros Hall. f_equal. apply map_eq. intros name.
      rewrite (lookup_fmap body (body <$> m)).
      destruct ((body <$> m) !! name) as [d|] eqn:Hd; [|done].
      destruct (Hfrom name d Hd) as (svc & Hsvc & ->).
      cbn [fmap option_fmap option_map]. f_equal.
      by apply (ReadStack_service_defaulted svc), (Hall name).
  - intros name d Hd. destruct (Hfrom name d Hd) as (svc & Hsvc & ->).
    exists (body (body svc)).
    rewrite !lookup_fmap, Hsvc.
    split; [done|]. by apply (ReadStack_service_defaulted svc).
Qed.

End ReadStack_claims.

(** Witness of C7 on [sample.svc_entrypoint], declared as "app". *)
Lemma ReadStack_entrypoint_command_witness :
  ∃ svc',
    Stack.Services
      (ReadStack_defaults sample.setBuildDefaults ["app"]
         (Stack.mk "s" "" {[ "app" := sample.svc_entrypoint ]} ∅ ""))
      !! "app" = Some svc'
    ∧ svc' = ReadStack_service sample.setBuildDefaults sample.svc_entrypoint
    ∧ Service.Command svc' = ["a"] ∧ Service.Args svc' = ["b"].
Proof.
  apply (ReadStack_entrypoint_command sample.setBuildDefaults ["app"]
           (Stack.mk "s" "" {[ "app" := sample.svc_entrypoint ]} ∅ "")
           "app" sample.svc_entrypoint "a" "b").
  - apply NoDup_singleton.
  - set_solver.
  - reflexivity.
  - reflexivity.
  - reflexivity.
Defined.

Lemma sample_setBuildDefaults_idem b :
  sample.setBuildDefaults (sample.setBuildDefaults b) = sample.setBuildDefaults b.
Proof.
  unfold sample.setBuildDefaults. destruct b as [n c d t cf a]; simpl.
  repeat (case_decide; simpl in *); try done; congruence.
Qed.

Lemma sample_setBuildDefaults_Name b :
  BuildInfo.Name (sample.setBuildDefaults b) = BuildInfo.Name b.
Proof. unfold sample.setBuildDefaults. by case_decide. Qed.

(** Witness of C3 (amended) on [sample.svc_entrypoint_expose], declared
    as "app". *)
Lemma ReadStack_defaults_twice_witness :
  let s :=
    Stack.mk "s" "" {[ "app" := sample.svc_entrypoint_expose ]} ∅ "" in
  let s1 := ReadStack_defaults sample.setBuildDefaults ["app"] s in
  let s2 := ReadStack_defaults sample.setBuildDefaults ["app"] s1 in
  let settled (d : Service.t) :=
    (Service.Entrypoint d = [] ∨ Service.Args d = Service.Entrypoint d)
    ∧ Service.Expose d = [] in
  (s2 = s1 ↔ ∀ name d, Stack.Services s1 !! name = Some d → settled d)
  ∧ ∀ name d, Stack.Services s1 !! name = Some d →
      ∃ d',
        Stack.Services s2 !! name = Some d'
        ∧ (d' = d ↔ settled d)
        ∧ (Service.Entrypoint d ≠ [] →
           Service.Command d = Service.Entrypoint d
           ∧ Service.Command d' = Service.Command d
           ∧ Service.Args d' = Service.Command d)
        ∧ (Service.Entrypoint d = [] →
           Service.Command d' = Service.Command d
           ∧ Service.Args d' = Service.Args d)
        ∧ Service.Ports d' = Service.Ports d ++ Service.Expose d.
Proof.
  apply (ReadStack_defaults_twice sample.setBuildDefaults ["app"]
           (Stack.mk "s" "" {[ "app" := sample.svc_entrypoint_expose ]} ∅ "")).
  - exact sample_setBuildDefaults_idem.
  - exact sample_setBuildDefaults_Name.
  - apply NoDup_singleton.
  - intros name [svc Hsvc]. destruct (decide (name = "app")) as [->|Hne].
    + apply list_elem_of_here.
    + simpl in Hsvc. by rewrite lookup_singleton_ne in Hsvc.
Defined.

(** C3 as stated fails: a second pass over the defaulted
    [sample.svc_entrypoint] replaces its args ["b"] by ["a"], and a second
    pass over the defaulted [sample.svc_expose] appends 8080 to its ports
    once more. *)
Lemma ReadStack_service_not_idempotent :
  let f := ReadStack_service sample.setBuildDefaults in
  f (f sample.svc_entrypoint) ≠ f sample.svc_entrypoint
  ∧ Service.Args (f sample.svc_entrypoint) = ["b"]
  ∧ Service.Args (f (f sample.svc_entrypoint)) = ["a"]
  ∧ f (f sample.svc_expose) ≠ f sample.svc_expose
  ∧ Service.Ports (f sample.svc_expose) = [80; 8080]
  ∧ Service.Ports (f (f sample.svc_expose)) = [80; 8080; 8080].
Proof.
  cbv zeta. split_and!; try reflexivity.
  - intros H. apply (f_equal Service.Args) in H. discriminate H.
  - intros H. apply (f_equal Service.Ports) in H. discriminate H.
Qed.

(** ** validate *)

Lemma IsPortInService_elem_of port portList :
  IsPortInService port portList = true ↔ port ∈ portList.
Proof.
  induction portList as [|p l IH]; simpl.
  - split; [done|]. by intros ?%elem_of_nil.
  - case_decide as Hp.
    + subst. split; [|done]. intros _. apply list_elem_of_here.
    + rewrite IH. split; [apply list_elem_of_further|].
      intros [?|?]%elem_of_cons; [congruence|done].
Qed.

(** What the endpoint loop of [validate] accepts: endpoints whose service
    is declared and whose port is NOT among the ports of that service. *)
Lemma validate_endpoints_accepts s endpointName endpoints :
  validate_endpoints s endpointName endpoints = None
  ↔ Forall (λ e, ∃ svc, Stack.Services s !! Endpoint.Service e = Some svc
                        ∧ Endpoint.Port e ∉ Service.Ports svc) endpoints.
Proof.
  induction endpoints as [|e l IH]; simpl.
  - split; [constructor|done].
  - rewrite Forall_cons.
    destruct (Stack.Services s !! Endpoint.Service e) as [svc|] eqn:Hs.
    + destruct (IsPortInService (Endpoint.Port e) (Service.Ports svc)) eqn:Hp.
      * apply IsPortInService_elem_of in Hp. split; [done|].
        intros [(svc' & ? & Hn) _]. by simplify_eq.
      * rewrite IH. split; [|tauto]. intros Hl. split; [|done].
        exists svc. split; [done|]. intros Hin%IsPortInService_elem_of.
        congruence.
    + split; [done|]. intros [(svc' & ? & _) _]. done.
Qed.

(** The part of C1 that holds: an endpoint that names an undeclared service
    is refused with an error naming the endpoint group and the service. *)
Lemma validate_endpoints_missing_service s endpointName e endpoints :
  Stack.Services s !! Endpoint.Service e = None →
  validate_endpoints s endpointName (e :: endpoints)
  = Some ("Invalid endpoint '" +:+ endpointName +:+ "': service '"
          +:+ Endpoint.Service e +:+ "' does not exist.").
Proof. intros Hs. simpl. by rewrite Hs. Qed.

(** C1 (the code departs from it): on the defaulted [sample.stack_web 80],
    whose endpoint names port 80 and whose service "web" declares port 80,
    [validate] returns the error "does not have port '80'"; on the
    defaulted [sample.stack_web 81], whose endpoint names a port that "web"
    does not declare, it returns nil.  An endpoint that names an undeclared
    service is refused with an error naming the group and the service, as
    the claim says. *)
Theorem validate_port_test_inverted :
  let defaulted := ReadStack_defaults sample.setBuildDefaults ["web"] in
  let validate :=
    validate sample.ValidKubeNameRegex_MatchString sample.Errorf ["main"] ["web"] in
  Service.Ports <$> Stack.Services (defaulted (sample.stack_web 80)) !! "web"
  = Some [80]
  ∧ validate (defaulted (sample.stack_web 80))
    = Some "Invalid endpoint 'main': service 'web' does not have port '80'."
  ∧ validate (defaulted (sample.stack_web 81)) = None
  ∧ validate (defaulted sample.stack_missing)
    = Some "Invalid endpoint 'main': service 'api' does not exist.".
Proof. cbv zeta. split_and!; vm_compute; reflexivity. Qed.

(** ** sort.SliceStable *)

Import stack.

Section SliceStable_facts.

Context {A : Type} (less : A → A → bool) (R : relation A).
Hypothesis less_R : ∀ x y, less x y = true → R x y.
Hypothesis not_less_R : ∀ x y, less x y = false → R y x.
Context `{!Transitive R}.

Lemma insert_Permutation x l : insert less x l ≡ₚ x :: l.
Proof.
  induction l as [|y l IH]; simpl; [done|].
  destruct (less y x); [|done]. rewrite IH. apply Permutation_swap.
Qed.

Lemma SliceStable_Permutation l : SliceStable less l ≡ₚ l.
Proof.
  induction l as [|x l IH]; simpl; [done|].
  unfold SliceStable in *. simpl. by rewrite insert_Permutation, IH.
Qed.

Lemma insert_sorted x l :
  StronglySorted R l → StronglySorted R (insert less x l).
Proof.
  induction l as [|y l IH]; simpl; intros Hs.
  - repeat constructor.
  - apply StronglySorted_cons in Hs as [Hy Hs].
    destruct (less y x) eqn:Hyx.
    + apply StronglySorted_cons. split; [|by apply IH].
      rewrite insert_Permutation. constructor; [by apply less_R|done].
    + apply StronglySorted_cons. split.
      * constructor; [by apply not_less_R|].
        eapply Forall_impl; [exact Hy|]. intros z Hz.
        etrans; [|exact Hz]. by apply not_less_R.
      * by apply StronglySorted_cons.
Qed.

Lemma SliceStable_sorted l : StronglySorted R (SliceStable less l).
Proof.
  induction l as [|x l IH]; simpl; [constructor|].
  by apply insert_sorted.
Qed.

(** Stability: the elements that satisfy [P] keep their order, provided
    no element that satisfies [P] sorts strictly before another one. *)
Lemma insert_filter (P : A → Prop) `{!∀ x, Decision (P x)} x l :
  (∀ y, P x → P y → less y x = false) →
  filter P (insert less x l) = filter P (x :: l).
Proof.
  intros Hstable. induction l as [|y l IH]; simpl; [done|].
  destruct (less y x) eqn:Hyx; [|done].
  rewrite filter_cons, IH, !filter_cons.
  destruct (decide (P y)) as [Hy|Hy]; [|done].
  destruct (decide (P x)) as [Hx|Hx]; [|done].
  specialize (Hstable y Hx Hy). congruence.
Qed.

Lemma SliceStable_filter (P : A → Prop) `{!∀ x, Decision (P x)} l :
  (∀ x y, P x → P y → less y x = false) →
  filter P (SliceStable less l) = filter P l.
Proof.
  intros Hstable. induction l as [|x l IH]; [done|].
  unfold SliceStable in *. simpl.
  rewrite insert_filter by eauto. by rewrite !filter_cons, IH.
Qed.

End SliceStable_facts.

(** ** The environment merge *)

Import env.

Lemma Compare_le_0 a b : strings.Compare a b ≤ 0 ↔ String.le a b.
Proof.
  unfold strings.Compare, String.le, String.leb.
  destruct (String.compare a b); simpl; split; try done; lia.
Qed.

Lemma Compare_refl a : strings.Compare a a = 0.
Proof.
  pose proof (String.compare_antisym a a) as H.
  unfold strings.Compare. destruct (String.compare a a); try done.
Qed.

Lemma lessName_le x y :
  lessName x y = true →
  strings.Compare (EnvVar.Name x) (EnvVar.Name y) ≤ 0.
Proof. unfold lessName. intros ?%bool_decide_eq_true. lia. Qed.

Lemma not_lessName_le x y :
  lessName x y = false →
  strings.Compare (EnvVar.Name y) (EnvVar.Name x) ≤ 0.
Proof.
  unfold lessName. intros Hge%bool_decide_eq_false.
  unfold strings.Compare in *. rewrite String.compare_antisym.
  destruct (String.compare (EnvVar.Name x) (EnvVar.Name y)); simpl; lia.
Qed.

Lemma sortedByName_SliceStable l : sortedByName (SliceStable lessName l).
Proof.
  unfold sortedByName. apply SliceStable_sorted.
  - apply lessName_le.
  - apply not_lessName_le.
  - intros x y z. rewrite !Compare_le_0. apply transitivity.
Qed.

Lemma byName_SliceStable n l :
  byName n (SliceStable lessName l) = byName n l.
Proof.
  unfold byName. apply SliceStable_filter.
  intros x y Hx Hy. unfold lessName. apply bool_decide_eq_false.
  rewrite Hx, Hy, Compare_refl. lia.
Qed.

Section env_merge.

Variable w : World.t.
Hypothesis rangeEnv_Permutation : ∀ m, World.rangeEnv w m ≡ₚ map_to_list m.

Lemma append_entries svc (l : list (string * string)) :
  foldl (λ svc '(name, value),
           Service.with_Environment svc
             (Service.Environment svc ++ [EnvVar.mk name value]))
        svc l
  = Service.with_Environment svc
      (Service.Environment svc ++ (uncurry EnvVar.mk <$> l)).
Proof.
  revert svc. induction l as [|[n v] l IH]; intros svc; simpl.
  - rewrite app_nil_r. by destruct svc.
  - rewrite IH. destruct svc; simpl. unfold Service.with_Environment; simpl.
    by rewrite <- app_assoc.
Qed.

Lemma lookup_delete_names (m : gmap string string) (l : list EnvVar.t) n :
  foldl (λ m e, delete (EnvVar.Name e) m) m l !! n
  = if decide (n ∈ names l) then None else m !! n.
Proof.
  revert m. induction l as [|e l IH]; intros m; cbn [foldl].
  - case_decide as Hn; [|done]. by apply elem_of_nil in Hn.
  - rewrite IH. unfold names. rewrite fmap_cons.
    assert (n ∈ EnvVar.Name e :: (EnvVar.Name <$> l)
            ↔ n = EnvVar.Name e ∨ n ∈ EnvVar.Name <$> l) as Hin
      by apply elem_of_cons.
    destruct (decide (n = EnvVar.Name e)) as [->|Hne].
    + rewrite lookup_delete_eq. repeat case_decide; tauto.
    + rewrite lookup_delete_ne by done. repeat case_decide; tauto.
Qed.

Lemma byName_app n l1 l2 : byName n (l1 ++ l2) = byName n l1 ++ byName n l2.
Proof. apply filter_app. Qed.

Lemma byName_not_elem n l : n ∉ names l → byName n l = [].
Proof.
  unfold byName, names. induction l as [|e l IH]; [done|].
  rewrite fmap_cons. intros [Hne Hn]%not_elem_of_cons.
  rewrite filter_cons, decide_False by (intros Heq; by apply Hne).
  by apply IH.
Qed.

Lemma elem_names_byName n l : n ∈ names l ↔ byName n l ≠ [].
Proof.
  split.
  - intros (e & -> & He)%list_elem_of_fmap Hnil.
    assert (e ∈ byName (EnvVar.Name e) l) as Hin
      by (by apply list_elem_of_filter).
    rewrite Hnil in Hin. by apply elem_of_nil in Hin.
  - intros Hne. destruct (decide (n ∈ names l)); [done|].
    by rewrite byName_not_elem in Hne.
Qed.

(** The entries a parsed file contributes for [n], in whatever order the
    map is ranged over: the one value the map has for [n], if any. *)
Lemma byName_map_entries (m : gmap string string)
    (l : list (string * string)) n :
  l ≡ₚ map_to_list m →
  byName n (uncurry EnvVar.mk <$> l)
  = match m !! n with Some v => [EnvVar.mk n v] | None => [] end.
Proof.
  intros Hl. unfold byName.
  assert (filter (λ e, EnvVar.Name e = n)
            (uncurry EnvVar.mk <$> map_to_list m)
          ≡ₚ match m !! n with Some v => [EnvVar.mk n v] | None => [] end)
    as Hm.
  { clear Hl. induction m as [|i x m Hi IH] using map_ind.
    - by rewrite map_to_list_empty, lookup_empty.
    - rewrite map_to_list_insert by done.
      rewrite fmap_cons, filter_cons. simpl.
      destruct (decide (i = n)) as [->|Hne].
      + rewrite lookup_insert_eq. rewrite Hi in IH.
        by apply Permutation_skip.
      + rewrite lookup_insert_ne by done. exact IH. }
  rewrite <- Hl in Hm.
  destruct (m !! n).
  - by apply Permutation_singleton_r in Hm.
  - by apply Permutation_nil_r in Hm.
Qed.

(** One env file: the entries it adds are those of its names that the
    environment does not define yet. *)
Lemma translateServiceEnvFile_parses svc filename m :
  parses w filename m →
  ∃ env',
    translateServiceEnvFile w svc filename
    = Ok (Service.with_Environment svc env')
    ∧ ∀ n, byName n env'
           = if decide (n ∈ names (Service.Environment svc))
             then byName n (Service.Environment svc)
             else match m !! n with Some v => [EnvVar.mk n v] | None => [] end.
Proof.
  intros (expanded & f & He & Ho & Hp).
  unfold translateServiceEnvFile. rewrite He, Ho, Hp.
  eexists. split; [by rewrite append_entries|].
  intros n. rewrite byName_app.
  erewrite byName_map_entries by apply rangeEnv_Permutation.
  rewrite lookup_delete_names. case_decide.
  - by rewrite app_nil_r.
  - by rewrite byName_not_elem.
Qed.

Lemma translateStackEnvVars_files_parses svc files ms :
  Forall2 (parses w) files ms →
  ∃ env',
    translateStackEnvVars_files w svc files
    = Ok (Service.with_Environment svc env')
    ∧ ∀ n, byName n env'
           = if decide (n ∈ names (Service.Environment svc))
             then byName n (Service.Environment svc)
             else match firstValue ms n with
                  | Some v => [EnvVar.mk n v]
                  | None => []
                  end.
Proof.
  intros Hfiles. revert svc.
  induction Hfiles as [|f m files ms Hf _ IH]; intros svc; simpl.
  - exists (Service.Environment svc). split; [by destruct svc|].
    intros n. case_decide; [done|]. by apply byName_not_elem.
  - destruct (translateServiceEnvFile_parses svc f m Hf) as (env1 & -> & H1).
    destruct (IH (Service.with_Environment svc env1)) as (env2 & -> & H2).
    exists env2. split; [by destruct svc|].
    intros n. rewrite H2. simpl. specialize (H1 n). revert H1.
    destruct (decide (n ∈ names (Service.Environment svc))) as [Hn|Hn];
      [|destruct (m !! n) as [v|]]; intros H1.
    + rewrite decide_True; [done|].
      apply elem_names_byName. rewrite H1. by apply elem_names_byName.
    + rewrite decide_True; [done|]. apply elem_names_byName. by rewrite H1.
    + rewrite decide_False; [done|]. rewrite elem_names_byName, H1.
      by intros Hx.
Qed.

End env_merge.

Section translateStackEnvVars_facts.

Variable w : World.t.

(** The loop over the services: when it returns no error, every service
    it visited holds what the body made of it, and the others are as
    they were. *)
Lemma translateStackEnvVars_range_ok order s s' :
  NoDup order →
  translateStackEnvVars_range w order s = (s', None) →
  (∀ name svc, name ∈ order → Stack.Services s !! name = Some svc →
     ∃ svc', translateStackEnvVars_service w svc = Ok svc'
             ∧ Stack.Services s' !! name = Some svc')
  ∧ (∀ name, name ∉ order →
       Stack.Services s' !! name = Stack.Services s !! name).
Proof.
  revert s. induction order as [|i order IH]; intros s Hnd Hrun.
  - simpl in Hrun. simplify_eq. split; [|done].
    intros name svc Hin. by apply elem_of_nil in Hin.
  - apply NoDup_cons in Hnd as [Hi Hnd]. cbn [translateStackEnvVars_range] in Hrun.
    destruct (Stack.Services s !! i) as [svci|] eqn:Hsi.
    + destruct (translateStackEnvVars_service w svci) as [svci'|err] eqn:Hb;
        [|done].
      destruct (IH _ Hnd Hrun) as [IH1 IH2]. cbn [Stack.Services Stack.with_Services] in *.
      split.
      * intros name svc [->|Hin]%elem_of_cons Hsvc.
        -- simplify_eq. exists svci'. split; [done|].
           by rewrite IH2, lookup_insert_eq.
        -- apply IH1; [done|]. rewrite lookup_insert_ne; [done|].
           intros ->. done.
      * intros name [Hne Hnin]%not_elem_of_cons.
        rewrite IH2 by done. by rewrite lookup_insert_ne.
    + destruct (IH _ Hnd Hrun) as [IH1 IH2]. split.
      * intros name svc [->|Hin]%elem_of_cons Hsvc; [congruence|].
        by apply IH1.
      * intros name [Hne Hnin]%not_elem_of_cons. by apply IH2.
Qed.

Hypothesis rangeEnv_Permutation : ∀ m, World.rangeEnv w m ≡ₚ map_to_list m.

(** The body terminates without error when the image expands and every
    env file parses. *)
Lemma translateStackEnvVars_service_total svc image ms :
  World.ExpandEnv w (Service.Image svc) = Ok image →
  Forall2 (parses w) (Service.EnvFiles svc) ms →
  ∃ svc', translateStackEnvVars_service w svc = Ok svc'.
Proof.
  intros Himg Hfiles. unfold translateStackEnvVars_service. rewrite Himg.
  cbv zeta.
  destruct (translateStackEnvVars_files_parses w rangeEnv_Permutation
              (Service.with_Image svc image)
              (Service.EnvFiles (Service.with_Image svc image)) ms Hfiles)
    as (env' & -> & _).
  eauto.
Qed.

Lemma translateStackEnvVars_service_merge svc svc' ms :
  translateStackEnvVars_service w svc = Ok svc' →
  Forall2 (parses w) (Service.EnvFiles svc) ms →
  Service.EnvFiles svc' = []
  ∧ sortedByName (Service.Environment svc')
  ∧ ∀ n, byName n (Service.Environment svc')
         = if decide (n ∈ names (Service.Environment svc))
           then byName n (Service.Environment svc)
           else match firstValue ms n with
                | Some v => [EnvVar.mk n v]
                | None => []
                end.
Proof.
  unfold translateStackEnvVars_service. intros Hrun Hfiles.
  destruct (World.ExpandEnv w (Service.Image svc)) as [image|]; [|done].
  cbv zeta in Hrun.
  destruct (translateStackEnvVars_files_parses w rangeEnv_Permutation
              (Service.with_Image svc image)
              (Service.EnvFiles (Service.with_Image svc image)) ms Hfiles)
    as (env' & Hf & Henv).
  rewrite Hf in Hrun. simplify_eq.
  cbn [Service.EnvFiles Service.Environment Service.with_EnvFiles
         Service.with_Environment Service.with_Image].
  split_and!.
  - done.
  - apply sortedByName_SliceStable.
  - intros n. rewrite byName_SliceStable. apply Henv.
Qed.

(** C2 (amended): after [translateStackEnvVars] has returned without
    error, a service's env-file references are cleared and its
    environment is ascending by name; the entries of a name that the
    explicit environment defines are the explicit ones, unchanged, and a
    name that only files define has one entry, with the value of the
    FIRST declared file that defines it. *)
Theorem translateStackEnvVars_merge order s s' name svc ms :
  NoDup order → name ∈ order →
  Stack.Services s !! name = Some svc →
  Forall2 (parses w) (Service.EnvFiles svc) ms →
  translateStackEnvVars w order s = (s', None) →
  ∃ svc',
    Stack.Services s' !! name = Some svc'
    ∧ Service.EnvFiles svc' = []
    ∧ sortedByName (Service.Environment svc')
    ∧ ∀ n, byName n (Service.Environment svc')
           = if decide (n ∈ names (Service.Environment svc))
             then byName n (Service.Environment svc)
             else match firstValue ms n with
                  | Some v => [EnvVar.mk n v]
                  | None => []
                  end.
Proof.
  intros Hnd Hin Hsvc Hfiles Hrun.
  destruct (translateStackEnvVars_range_ok order s s' Hnd Hrun) as [Hv _].
  destruct (Hv name svc Hin Hsvc) as (svc' & Hb & Hs').
  exists svc'. split; [done|].
  by apply (translateStackEnvVars_service_merge svc svc' ms).
Qed.

End translateStackEnvVars_facts.

(** Witness of C2 (amended) on [sample.svc_explicit], declared as "app":
    FOO is defined explicitly and by both files, ZED explicitly only. *)
Lemma translateStackEnvVars_merge_witness :
  ∃ svc',
    Stack.Services
      (translateStackEnvVars (sample.world true (λ _ _ _, ErrNotFound)) ["app"]
         (Stack.mk "s" "" {[ "app" := sample.svc_explicit ]} ∅ "")).1
      !! "app" = Some svc'
    ∧ Service.EnvFiles svc' = []
    ∧ sortedByName (Service.Environment svc')
    ∧ ∀ n, byName n (Service.Environment svc')
           = if decide (n ∈ names (Service.Environment sample.svc_explicit))
             then byName n (Service.Environment sample.svc_explicit)
             else match firstValue [{[ "FOO" := "1" ]}; {[ "FOO" := "2" ]}] n with
                  | Some v => [EnvVar.mk n v]
                  | None => []
                  end.
Proof.
  apply (translateStackEnvVars_merge (sample.world true (λ _ _ _, ErrNotFound))
           (λ m, reflexivity (map_to_list m)) ["app"]
           (Stack.mk "s" "" {[ "app" := sample.svc_explicit ]} ∅ "")
           _ "app" sample.svc_explicit
           [{[ "FOO" := "1" ]}; {[ "FOO" := "2" ]}]).
  - apply NoDup_singleton.
  - set_solver.
  - reflexivity.
  - repeat constructor; by (eexists _, _; split_and!; reflexivity).
  - reflexivity.
Defined.

(** C2 as stated fails: a.env defines FOO as 1 and b.env, declared after
    it, as 2; the resolved environment of [sample.svc_two_files] holds
    FOO=1 and not FOO=2. *)
Lemma translateStackEnvVars_last_file_loses :
  Service.EnvFiles sample.svc_two_files = ["a.env"; "b.env"]
  ∧ Forall2 (parses (sample.world true (λ _ _ _, ErrNotFound)))
      ["a.env"; "b.env"] [{[ "FOO" := "1" ]}; {[ "FOO" := "2" ]}]
  ∧ ∃ svc',
      translateStackEnvVars_service (sample.world true (λ _ _ _, ErrNotFound))
        sample.svc_two_files = Ok svc'
      ∧ Service.Environment svc' = [EnvVar.mk "FOO" "1"]
      ∧ EnvVar.mk "FOO" "2" ∉ Service.Environment svc'.
Proof.
  split_and!.
  - reflexivity.
  - repeat constructor; by (eexists _, _; split_and!; reflexivity).
  - eexists. split_and!; [reflexivity|reflexivity|].
    vm_compute. intros Hin. apply list_elem_of_singleton in Hin. discriminate Hin.
Qed.

(** ** translateBuildImages *)

Lemma calls_app tr1 tr2 : calls (tr1 ++ tr2) = calls tr1 ++ calls tr2.
Proof.
  induction tr1 as [|e tr1 IH]; simpl; [done|].
  destruct (isCall e); simpl; by rewrite IH.
Qed.

Lemma calls_log tr lvl msg : calls (tr ++ [EvLog lvl msg]) = calls tr.
Proof. rewrite calls_app. simpl. apply app_nil_r. Qed.

Section translateBuildImages_facts.

Variable w : World.t.
Variable L : okLabels.t.
Variables (forceBuild noCache : bool) (buildKitHost : string)
          (isOktetoCluster : bool).

Local Abbreviation body :=
  (translateBuildImages_service w L forceBuild noCache buildKitHost
     isOktetoCluster).
Local Abbreviation build :=
  (translateBuildImages_build w L noCache buildKitHost isOktetoCluster).
Local Abbreviation range :=
  (translateBuildImages_range w L forceBuild noCache buildKitHost
     isOktetoCluster).

Local Abbreviation runOf :=
  (events.runOf w noCache buildKitHost isOktetoCluster).

(** What the build step does to the state: it adds events, of which one is
    a call, that of [build.Run]; it returns an error exactly when
    [build.Run] does, and then leaves the stack as it was; otherwise it
    stores the service, stamped. *)
Lemma build_outcome name svc b st :
  let run := runOf (Stack.Namespace (St.s st)) svc b in
  ∃ evs,
    St.trace (build name svc b st).1 = St.trace st ++ evs
    ∧ Forall (λ e, events.isLookup e = false) evs
    ∧ calls evs = [EvRun run]
    ∧ match World.Run w (calls (St.trace st)) run with
      | Some err =>
          (build name svc b st).2
          = Some ("error building image for '" +:+ name +:+ "': " +:+ err)
          ∧ St.s (build name svc b st).1 = St.s st
      | None =>
          (build name svc b st).2 = None
          ∧ ∃ now,
              St.s (build name svc b st).1
              = Stack.with_Services (St.s st)
                  (<[name :=
                       SetLastBuiltAnnotation (okLabels.LastBuiltAnnotation L)
                         now svc]> (Stack.Services (St.s st)))
      end.
Proof.
  unfold translateBuildImages_build, events.runOf.
  destruct st as [s building tr].
  destruct building; cbn [negb St.building St.s St.trace emit set_building];
    rewrite ?calls_log;
    match goal with
    | |- context [World.Run w ?h ?r] => destruct (World.Run w h r) as [err|]
    end;
    cbn [fst snd St.s St.trace emit store];
    rewrite <- ?app_assoc; eexists; (split; [reflexivity|]);
    (split; [by repeat constructor|]);
    (split; [reflexivity|]); split; eauto.
Qed.

(** The build step keeps the stack's name and namespace, touches the
    service [name] only, calls [build.Run] once, and on success stores
    the service with its image as it was given. *)
Lemma build_spec name svc b st :
  let res := build name svc b st in
  let run := runOf (Stack.Namespace (St.s st)) svc b in
  Stack.Name (St.s res.1) = Stack.Name (St.s st)
  ∧ Stack.Namespace (St.s res.1) = Stack.Namespace (St.s st)
  ∧ (∀ n, n ≠ name →
       Stack.Services (St.s res.1) !! n = Stack.Services (St.s st) !! n)
  ∧ calls (St.trace res.1) = calls (St.trace st) ++ [EvRun run]
  ∧ (res.2 = None →
       ∃ svc', Stack.Services (St.s res.1) !! name = Some svc'
               ∧ Service.Image svc' = Service.Image svc)
  ∧ (res.2 = None ↔ World.Run w (calls (St.trace st)) run = None).
Proof.
  cbv zeta.
  destruct (build_outcome name svc b st) as (evs & Htr & _ & Hcalls & Hout).
  cbv zeta in Hout. rewrite Htr, calls_app, Hcalls.
  destruct (World.Run w _ _) as [err|].
  - destruct Hout as [-> ->]. by split_and!.
  - destruct Hout as [-> [now ->]].
    cbn [Stack.Name Stack.Namespace Stack.Services Stack.with_Services].
    split_and!; try done.
    + intros n Hn. by rewrite lookup_insert_ne.
    + intros _. eexists. by rewrite lookup_insert_eq.
Qed.

Lemma build_calls name svc b st :
  calls (St.trace (build name svc b st).1)
  = calls (St.trace st)
      ++ [EvRun (runOf (Stack.Namespace (St.s st)) svc b)].
Proof. apply build_spec. Qed.

Lemma targetImage_Build stackName name svc :
  Service.Build (targetImage isOktetoCluster stackName name svc)
  = Service.Build svc.
Proof. unfold targetImage. by destruct (_ && _). Qed.

Local Abbreviation serviceCalls :=
  (events.serviceCalls w forceBuild noCache buildKitHost isOktetoCluster).
Local Abbreviation visitCalls :=
  (events.visitCalls w forceBuild noCache buildKitHost isOktetoCluster).

(** The calls of the body are those of a visit of the service, as it is
    declared in a stack with the name and namespace of the state the body
    starts from, after the calls made so far. *)
Lemma body_calls name svc st s0 :
  Stack.Name (St.s st) = Stack.Name s0 →
  Stack.Namespace (St.s st) = Stack.Namespace s0 →
  Stack.Services s0 !! name = Some svc →
  calls (St.trace (body name svc st).1)
  = calls (St.trace st) ++ serviceCalls s0 (calls (St.trace st)) name.
Proof.
  intros Hn Hns Hsvc.
  unfold translateBuildImages_service, events.serviceCalls. rewrite Hsvc.
  destruct (Service.Build svc) as [b|]; [|simpl; by rewrite app_nil_r].
  destruct (negb isOktetoCluster && bool_decide (Service.Image svc = ""));
    [simpl; by rewrite app_nil_r|].
  cbn [St.s emit St.building St.trace]. rewrite Hn, Hns.
  destruct forceBuild; cbn [negb].
  - rewrite build_calls. cbn [St.s St.trace]. by rewrite Hns.
  - destruct (World.GetImageTagWithDigest w _ _ _).
    + cbn [fst store emit St.trace]. by rewrite calls_app.
    + rewrite build_calls.
      cbn [emit St.s St.trace St.building]. rewrite calls_log, calls_app, Hns.
      cbn [calls isCall app]. by rewrite <- !app_assoc.
    + cbn [fst store emit St.trace]. by rewrite calls_app.
Qed.

(** The body keeps the stack's name and namespace and touches the service
    it is run on only; when it returns no error for a service with a
    build, that service is stored with the target image. *)
Lemma body_spec name svc st :
  let res := body name svc st in
  Stack.Name (St.s res.1) = Stack.Name (St.s st)
  ∧ Stack.Namespace (St.s res.1) = Stack.Namespace (St.s st)
  ∧ (∀ n, n ≠ name →
       Stack.Services (St.s res.1) !! n = Stack.Services (St.s st) !! n)
  ∧ (is_Some (Service.Build svc) → res.2 = None →
       ∃ svc', Stack.Services (St.s res.1) !! name = Some svc'
               ∧ Service.Image svc'
                 = Service.Image
                     (targetImage isOktetoCluster (Stack.Name (St.s st))
                        name svc)).
Proof.
  unfold translateBuildImages_service.
  destruct (Service.Build svc) as [b|];
    [|cbn; split_and!; try done; by intros [? ?]].
  destruct (negb isOktetoCluster && bool_decide (Service.Image svc = ""));
    [cbn; split_and!; done|].
  set (tgt := targetImage isOktetoCluster (Stack.Name (St.s st)) name svc).
  destruct forceBuild; cbn [negb].
  - destruct (build_spec name tgt b st) as (H1 & H2 & H3 & _ & H5 & _).
    cbv zeta. split_and!; first [done | (intros _; apply H5)].
  - cbv zeta. destruct (World.GetImageTagWithDigest w _ _ _).
    + cbn. split_and!; try done.
      * intros n Hn. by rewrite lookup_insert_ne.
      * intros _ _. eexists. by rewrite lookup_insert_eq.
    + match goal with
      | |- context [build name tgt b ?st'] =>
          destruct (build_spec name tgt b st') as (H1 & H2 & H3 & _ & H5 & _)
      end.
      split_and!; first [done | (intros _; apply H5)].
    + cbn. split_and!; try done.
      * intros n Hn. by rewrite lookup_insert_ne.
      * intros _ _. eexists. by rewrite lookup_insert_eq.
Qed.

(** The loop over the services, started in a state whose stack agrees
    with [s0] on the services still to visit. *)
Lemma range_spec order st st' err s0 :
  NoDup order →
  Stack.Name (St.s st) = Stack.Name s0 →
  Stack.Namespace (St.s st) = Stack.Namespace s0 →
  (∀ n, n ∈ order →
     Stack.Services (St.s st) !! n = Stack.Services s0 !! n) →
  range order st = (st', err) →
  Stack.Name (St.s st') = Stack.Name s0
  ∧ Stack.Namespace (St.s st') = Stack.Namespace s0
  ∧ (∀ n, n ∉ order →
       Stack.Services (St.s st') !! n = Stack.Services (St.s st) !! n)
  ∧ (∃ visited,
       visited `prefix_of` order
       ∧ (err = None → visited = order)
       ∧ calls (St.trace st') = visitCalls s0 (calls (St.trace st)) visited)
  ∧ (err = None →
     ∀ n svc, n ∈ order → Stack.Services s0 !! n = Some svc →
       is_Some (Service.Build svc) →
       ∃ svc', Stack.Services (St.s st') !! n = Some svc'
               ∧ Service.Image svc'
                 = Service.Image
                     (targetImage isOktetoCluster (Stack.Name s0) n svc)).
Proof.
  revert st. induction order as [|i order IH];
    intros st Hnd Hname Hns Hagree Hrun.
  - simpl in Hrun. simplify_eq. split_and!; try done.
    + by exists [].
    + intros _ n svc Hin. by apply elem_of_nil in Hin.
  - apply NoDup_cons in Hnd as [Hi Hnd].
    cbn [translateBuildImages_range] in Hrun.
    assert (Stack.Services (St.s st) !! i = Stack.Services s0 !! i) as Hsi
      by (apply Hagree; left).
    destruct (Stack.Services (St.s st) !! i) as [svc|] eqn:Hsvc.
    + destruct (body_spec i svc st) as (B1 & B2 & B3 & B4).
      pose proof (body_calls i svc st s0 Hname Hns (eq_sym Hsi)) as B5.
      destruct (body i svc st) as [st1 [e1|]] eqn:Hbody;
        cbn [fst snd] in *.
      * simplify_eq. split_and!.
        -- congruence.
        -- congruence.
        -- intros n [Hne _]%not_elem_of_cons. by apply B3.
        -- exists [i]. split_and!; [|done|].
           ++ by exists order.
           ++ by rewrite B5.
        -- done.
      * assert (∀ n, n ∈ order →
                  Stack.Services (St.s st1) !! n = Stack.Services s0 !! n)
          as Hagree1.
        { intros n Hn. rewrite B3 by (intros ->; done).
          apply Hagree. by right. }
        destruct (IH st1 Hnd ltac:(congruence) ltac:(congruence)
                    Hagree1 Hrun)
          as (I1 & I2 & I3 & (visited & Hpre & Hall & Hcalls) & I5).
        split_and!; try done.
        -- intros n [Hne Hnin]%not_elem_of_cons.
           rewrite I3 by done. by apply B3.
        -- exists (i :: visited). split_and!.
           ++ by apply prefix_cons.
           ++ intros Herr. by rewrite Hall.
           ++ by rewrite Hcalls, B5.
        -- intros Herr n svcn [->|Hin]%elem_of_cons Hn Hb.
           ++ assert (svcn = svc) as -> by congruence.
              rewrite I3 by done. rewrite <- Hname. by apply B4.
           ++ by apply (I5 Herr).
    + assert (serviceCalls s0 (calls (St.trace st)) i = []) as Hsc
        by (unfold events.serviceCalls; by rewrite <- Hsi).
      assert (∀ n, n ∈ order →
                Stack.Services (St.s st) !! n = Stack.Services s0 !! n)
        as Hagree1 by (intros n Hn; apply Hagree; by right).
      destruct (IH st Hnd Hname Hns Hagree1 Hrun)
        as (I1 & I2 & I3 & (visited & Hpre & Hall & Hcalls) & I5).
      split_and!; try done.
      * intros n [Hne Hnin]%not_elem_of_cons. by apply I3.
      * exists (i :: visited). split_and!.
        -- by apply prefix_cons.
        -- intros Herr. by rewrite Hall.
        -- rewrite Hcalls. cbn [events.visitCalls]. by rewrite Hsc, app_nil_r.
      * intros Herr n svcn [->|Hin]%elem_of_cons Hn Hb.
        -- congruence.
        -- by apply (I5 Herr).
Qed.

(** The calls made before a visit are among the calls after it. *)
Lemma visitCalls_incl s hist visited e :
  e ∈ hist → e ∈ visitCalls s hist visited.
Proof.
  revert hist. induction visited as [|i visited IH]; intros hist He; [done|].
  cbn [events.visitCalls]. apply IH. apply elem_of_app. by left.
Qed.

(** A call that a visit of [name] issues whatever was called before is
    among the calls of a visit of services that [name] is one of. *)
Lemma visitCalls_elem s hist visited name e :
  name ∈ visited → (∀ h, e ∈ serviceCalls s h name) →
  e ∈ visitCalls s hist visited.
Proof.
  intros Hin He. revert hist.
  induction visited as [|i visited IH]; intros hist;
    [by apply elem_of_nil in Hin|].
  cbn [events.visitCalls].
  apply elem_of_cons in Hin as [->|Hin]; [|by apply IH].
  apply visitCalls_incl, elem_of_app. right. apply He.
Qed.

(** The loop over two lists of services in a row. *)
Lemma range_app order1 order2 st :
  range (order1 ++ order2) st
  = match range order1 st with
    | (st1, Some err) => (st1, Some err)
    | (st1, None) => range order2 st1
    end.
Proof.
  revert st. induction order1 as [|i order1 IH]; intros st; [done|].
  cbn [app translateBuildImages_range].
  destruct (Stack.Services (St.s st) !! i) as [svc|]; [|apply IH].
  destruct (body i svc st) as [st1 [e|]]; [done|apply IH].
Qed.

(** The loop leaves the services it does not visit as they were. *)
Lemma range_others order st n :
  n ∉ order →
  Stack.Services (St.s (range order st).1) !! n
  = Stack.Services (St.s st) !! n.
Proof.
  revert st. induction order as [|i order IH]; intros st Hn; [done|].
  apply not_elem_of_cons in Hn as [Hne Hn].
  cbn [translateBuildImages_range].
  destruct (Stack.Services (St.s st) !! i) as [svc|]; [|by apply IH].
  destruct (body_spec i svc st) as (_ & _ & B3 & _).
  destruct (body i svc st) as [st1 [e|]]; cbn [fst] in *; [by apply B3|].
  rewrite IH by done. by apply B3.
Qed.

(** A service with a build and no image, on a cluster that is not
    Okteto's, makes the body return the configuration error. *)
Lemma body_config_error name svc st :
  is_Some (Service.Build svc) → isOktetoCluster = false →
  Service.Image svc = "" →
  body name svc st
  = (st, Some ("'build' and 'image' fields of service '" +:+ name
               +:+ "' cannot be empty")).
Proof.
  intros [b Hb] -> Himg. unfold translateBuildImages_service.
  rewrite Hb, Himg. done.
Qed.

End translateBuildImages_facts.




(** The visit of a service sees what the visits before it did: with the
    registry [sample.pushed], the two services of [sample.stack_shared],
    which build the same image, make for one build, that of the service
    visited first, and the lookup of the second finds the image. *)
Example translateBuildImages_shared_image :
  let run order :=
    translateBuildImages (sample.world false sample.pushed) sample.labels
      false false order sample.stack_shared in
  events.isRun <$> calls (St.trace (run ["b"; "a"]).1) = [false; true; false]
  ∧ events.image <$> calls (St.trace (run ["b"; "a"]).1)
    = [Some "registry/shared"; Some "registry/shared"; Some "registry/shared"]
  ∧ is_Some
      ((Stack.Services (St.s (run ["b"; "a"]).1) !! "b")
       ≫= (λ svc, Service.Annotations svc !! "dev.okteto.com/last-built"))
  ∧ Service.Annotations
      <$> (Stack.Services (St.s (run ["b"; "a"]).1) !! "a") = Some ∅.
Proof.
  cbv zeta. split_and!; [vm_compute; reflexivity..| |vm_compute; reflexivity].
  vm_compute. by eexists.
Qed.

(** C5 (amended): with [forceBuild] false, the body looks the target image
    up; whatever the registry returns other than [ErrNotFound], a tag with
    its digest or a failure of the lookup alike, [build.Run] is not called,
    no error is returned and the service is stored under its target image,
    which is the image it declares unless the cluster is Okteto's and the
    image does not start with "okteto.dev"; when the registry returns
    [ErrNotFound], and only then, [build.Run] is called. *)
Theorem translateBuildImages_lookup_decides w L noCache buildKitHost
    isOktetoCluster name svc b st :
  Service.Build svc = Some b →
  negb isOktetoCluster && bool_decide (Service.Image svc = "") = false →
  let target :=
    targetImage isOktetoCluster (Stack.Name (St.s st)) name svc in
  let namespace := Stack.Namespace (St.s st) in
  let lookup := EvGetImageTagWithDigest namespace (Service.Image target) in
  let res :=
    translateBuildImages_service w L false noCache buildKitHost
      isOktetoCluster name svc st in
  (World.GetImageTagWithDigest w (calls (St.trace st)) namespace
     (Service.Image target)
   ≠ ErrNotFound →
   res = (store name target (emit lookup st), None))
  ∧ (World.GetImageTagWithDigest w (calls (St.trace st)) namespace
       (Service.Image target)
     = ErrNotFound →
     calls (St.trace res.1)
     = calls (St.trace st)
         ++ [lookup;
             EvRun (events.runOf w noCache buildKitHost isOktetoCluster
                      namespace target b)])
  ∧ (isOktetoCluster = false
     ∨ strings.HasPrefix (Service.Image svc) "okteto.dev" = true →
     target = svc).
Proof.
  intros Hb Hcfg. cbv zeta. unfold translateBuildImages_service.
  rewrite Hb, Hcfg. cbn [negb St.s emit St.building St.trace].
  split_and!.
  - by destruct (World.GetImageTagWithDigest w _ _ _).
  - intros Hlook. rewrite Hlook, build_calls.
    cbn [emit St.s St.trace St.building].
    rewrite calls_log, calls_app. cbn [calls isCall app].
    by rewrite <- !app_assoc.
  - unfold targetImage. by intros [-> | ->]; rewrite ?andb_false_r.
Qed.

(** Witness of C5 (amended) on [sample.stack_api], whose registry lookup
    fails. *)
Lemma translateBuildImages_lookup_decides_witness :
  let w := sample.world false (λ _ _ _, LookupFailed "connection refused") in
  let st := St.mk sample.stack_api false [] in
  let target := targetImage false "app" "api" sample.svc_api in
  let lookup := EvGetImageTagWithDigest "dev" (Service.Image target) in
  let res :=
    translateBuildImages_service w sample.labels false false
      "tcp://buildkit.okteto.net:1234" false "api" sample.svc_api st in
  (World.GetImageTagWithDigest w (calls (St.trace st)) "dev"
     (Service.Image target) ≠ ErrNotFound →
   res = (store "api" target (emit lookup st), None))
  ∧ (World.GetImageTagWithDigest w (calls (St.trace st)) "dev"
       (Service.Image target)
     = ErrNotFound →
     calls (St.trace res.1)
     = calls (St.trace st)
         ++ [lookup;
             EvRun (events.runOf w false "tcp://buildkit.okteto.net:1234"
                      false "dev" target sample.build_here)])
  ∧ (false = false
     ∨ strings.HasPrefix (Service.Image sample.svc_api) "okteto.dev" = true →
     target = sample.svc_api).
Proof.
  apply (translateBuildImages_lookup_decides
           (sample.world false (λ _ _ _, LookupFailed "connection refused"))
           sample.labels false "tcp://buildkit.okteto.net:1234" false
           "api" sample.svc_api sample.build_here
           (St.mk sample.stack_api false [])).
  - reflexivity.
  - reflexivity.
Defined.

(** C5 as stated fails in its second half: when the lookup of
    "registry/api" fails with a transport error, [translateBuildImages]
    ends exactly as it does when the image is found: no error is returned
    and [build.Run] is not called.  A failed lookup is one more way to skip
    the build, not an error of its own. *)
Lemma translateBuildImages_lookup_failure_skips :
  let run lookup :=
    translateBuildImages (sample.world false lookup) sample.labels
      false false ["api"] sample.stack_api in
  run (λ _ _ _, LookupFailed "connection refused")
  = run (λ _ _ _, TagWithDigest "registry/api@sha256:0a1b")
  ∧ (run (λ _ _ _, LookupFailed "connection refused")).2 = None
  ∧ St.trace (run (λ _ _ _, LookupFailed "connection refused")).1
    = [EvGetImageTagWithDigest "dev" "registry/api"]
  ∧ events.isRun
      <$> calls (St.trace (run (λ _ _ _, ErrNotFound)).1)
    = [false; true].
Proof. cbv zeta. split_and!; vm_compute; reflexivity. Qed.

(** C8 (amended): for a service with a build spec.

    On an Okteto cluster, when the image does not start with the string
    "okteto.dev", the loop body works on the image
    okteto.dev/<stack name>-<service name>:okteto: it is what the registry
    is asked about, unless [forceBuild] is set, and what [build.Run] is
    called for, if [forceBuild] is set or the registry answers
    [ErrNotFound]; when the build is skipped or succeeds, the service is
    stored under that image, and when the build fails, the body returns
    the error of the build and the stack stays as it was.  When
    [translateBuildImages] returns no error, the service is stored under
    that image and its lookup, or with [forceBuild] its build, is among the
    calls made.

    On another cluster, when the image is empty, the loop body returns the
    error that names the service and does nothing else;
    [translateBuildImages] returns that error when it comes to the service,
    the error of a service visited before it when one of them fails, and
    never succeeds when the service is among those visited. *)
Theorem translateBuildImages_image :
  (∀ w L (forceBuild noCache : bool) buildKitHost name svc b st,
     Service.Build svc = Some b →
     strings.HasPrefix (Service.Image svc) "okteto.dev" = false →
     let image :=
       "okteto.dev/" +:+ Stack.Name (St.s st) +:+ "-" +:+ name
       +:+ ":okteto" in
     let target := Service.with_Image svc image in
     let namespace := Stack.Namespace (St.s st) in
     let lookup := EvGetImageTagWithDigest namespace image in
     let run :=
       events.runOf w noCache buildKitHost true namespace target b in
     let asked : list Event := if forceBuild then [] else [lookup] in
     let built :=
       events.builds forceBuild
         (World.GetImageTagWithDigest w (calls (St.trace st)) namespace
            image) in
     let res :=
       translateBuildImages_service w L forceBuild noCache buildKitHost
         true name svc st in
     BuildRun.image run = image
     ∧ calls (St.trace res.1)
       = calls (St.trace st) ++ asked ++ (if built then [EvRun run] else [])
     ∧ res.2
       = (if built
          then (λ err, "error building image for '" +:+ name +:+ "': "
                       +:+ err)
                 <$> World.Run w (calls (St.trace st) ++ asked) run
          else None)
     ∧ match res.2 with
       | None =>
           ∃ svc',
             Stack.Services (St.s res.1) !! name = Some svc'
             ∧ Service.Image svc' = image
             ∧ if built
               then ∃ now,
                      svc' = SetLastBuiltAnnotation
                               (okLabels.LastBuiltAnnotation L) now target
               else svc' = target
       | Some _ => St.s res.1 = St.s st
       end)
  ∧ (∀ w L (forceBuild noCache : bool) buildKitHost order s name svc b,
       World.GetBuildKitHost w = Ok (buildKitHost, true) →
       NoDup order → name ∈ order →
       Stack.Services s !! name = Some svc →
       Service.Build svc = Some b →
       strings.HasPrefix (Service.Image svc) "okteto.dev" = false →
       let image :=
         "okteto.dev/" +:+ Stack.Name s +:+ "-" +:+ name +:+ ":okteto" in
       let res := translateBuildImages w L forceBuild noCache order s in
       res.2 = None →
       (∃ svc', Stack.Services (St.s res.1) !! name = Some svc'
                ∧ Service.Image svc' = image)
       ∧ (if forceBuild
          then EvRun (events.runOf w noCache buildKitHost true
                        (Stack.Namespace s) (Service.with_Image svc image) b)
          else EvGetImageTagWithDigest (Stack.Namespace s) image)
         ∈ calls (St.trace res.1))
  ∧ (∀ w L (forceBuild noCache : bool) buildKitHost s name svc,
       World.GetBuildKitHost w = Ok (buildKitHost, false) →
       Stack.Services s !! name = Some svc →
       is_Some (Service.Build svc) →
       Service.Image svc = "" →
       let msg :=
         "'build' and 'image' fields of service '" +:+ name
         +:+ "' cannot be empty" in
       (∀ st,
          translateBuildImages_service w L forceBuild noCache buildKitHost
            false name svc st
          = (st, Some msg))
       ∧ (∀ pre post, name ∉ pre →
            let before :=
              translateBuildImages_range w L forceBuild noCache buildKitHost
                false pre (St.mk s false []) in
            translateBuildImages w L forceBuild noCache
              (pre ++ name :: post) s
            = (before.1, Some (default msg before.2)))
       ∧ (∀ order, name ∈ order →
            is_Some (translateBuildImages w L forceBuild noCache order s).2)).
Proof.
  split_and!.
  - intros w L forceBuild noCache buildKitHost name svc b st Hb Hpre.
    cbv zeta. unfold translateBuildImages_service, targetImage.
    rewrite Hb, Hpre. cbn [negb andb].
    set (image := "okteto.dev/" +:+ Stack.Name (St.s st) +:+ "-" +:+ name
                  +:+ ":okteto").
    set (target := Service.with_Image svc image).
    assert (Service.Image target = image) as Himg by done.
    rewrite Himg. split; [done|].
    unfold events.builds. destruct forceBuild; cbn [negb orb].
    + destruct (build_outcome w L noCache buildKitHost true name target b st)
        as (evs & Htr & _ & Hcalls & Hout). cbv zeta in Hout.
      rewrite Htr, calls_app, Hcalls, app_nil_r. cbn [app].
      destruct (World.Run w _ _) as [err|].
      * destruct Hout as [-> ->]. by split_and!.
      * destruct Hout as [-> [now ->]]. split_and!; [done|done|].
        cbn [Stack.Services Stack.with_Services]. rewrite lookup_insert_eq.
        eexists. split_and!; [reflexivity|done|by exists now].
    + cbn [emit St.s St.trace].
      destruct (World.GetImageTagWithDigest w _ _ _).
      * cbn [fst snd store emit St.trace St.s Stack.Services Stack.with_Services].
        rewrite calls_app, lookup_insert_eq. cbn [calls isCall].
        split_and!; [done|done|]. by eexists.
      * match goal with
        | |- context [translateBuildImages_build _ _ _ _ _ _ _ _ ?st'] =>
            destruct (build_outcome w L noCache buildKitHost true name
                        target b st')
              as (evs & Htr & _ & Hcalls & Hout)
        end.
        cbv zeta in Hout. cbn [emit St.s St.trace] in Htr, Hcalls, Hout.
        rewrite calls_log, calls_app in Hout. cbn [calls isCall] in Hout.
        rewrite Htr, !calls_app, Hcalls.
        cbn [calls isCall app]. rewrite app_nil_r.
        destruct (World.Run w _ _) as [err|].
        -- destruct Hout as [-> ->]. rewrite <- !app_assoc. by split_and!.
        -- destruct Hout as [-> [now ->]]. rewrite <- !app_assoc.
           split_and!; [done|done|].
           cbn [Stack.Services Stack.with_Services]. rewrite lookup_insert_eq.
           eexists. split_and!; [reflexivity|done|by exists now].
      * cbn [fst snd store emit St.trace St.s Stack.Services Stack.with_Services].
        rewrite calls_app, lookup_insert_eq. cbn [calls isCall].
        split_and!; [done|done|]. by eexists.
  - intros w L forceBuild noCache buildKitHost order s name svc b
      Hhost Hnd Hin Hsvc Hb Hpre. cbv zeta.
    assert (targetImage true (Stack.Name s) name svc
            = Service.with_Image svc
                ("okteto.dev/" +:+ Stack.Name s +:+ "-" +:+ name
                 +:+ ":okteto")) as Htgt
      by (unfold targetImage; by rewrite Hpre).
    unfold translateBuildImages. rewrite Hhost.
    destruct (translateBuildImages_range w L forceBuild noCache
                buildKitHost true order (St.mk s false []))
      as [st' err] eqn:Hrun.
    destruct (range_spec w L forceBuild noCache buildKitHost true
                order (St.mk s false []) st' err s Hnd eq_refl eq_refl
                (λ _ _, eq_refl) Hrun)
      as (_ & _ & _ & (visited & _ & Hall & Hcalls) & Hstored).
    destruct err as [e|]; [done|]. intros _. cbn [fst].
    assert (St.s (if negb (St.building st') && forceBuild
                  then emit (EvLog Warning
                               "Ignoring '--build' argument. There are not 'build' primitives in your stack")
                         st'
                  else st') = St.s st') as ->
      by (by destruct (negb (St.building st') && forceBuild)).
    assert (calls (St.trace
                     (if negb (St.building st') && forceBuild
                      then emit (EvLog Warning
                                   "Ignoring '--build' argument. There are not 'build' primitives in your stack")
                             st'
                      else st')) = calls (St.trace st')) as ->.
    { destruct (negb (St.building st') && forceBuild); [|done].
      cbn [emit St.trace]. apply calls_log. }
    split.
    + destruct (Hstored eq_refl name svc Hin Hsvc ltac:(by rewrite Hb))
        as (svc' & Hs' & Hi').
      exists svc'. split; [done|]. by rewrite Hi', Htgt.
    + rewrite Hcalls, (Hall eq_refl).
      apply (visitCalls_elem _ _ _ _ _ _ _ _ name); [done|].
      intros h. unfold events.serviceCalls. rewrite Hsvc, Hb, Htgt.
      cbn [negb andb Service.Image Service.with_Image].
      destruct forceBuild.
      * apply list_elem_of_here.
      * destruct (World.GetImageTagWithDigest w _ _ _);
          apply list_elem_of_here.
  - intros w L forceBuild noCache buildKitHost s name svc
      Hhost Hsvc Hb Himg. cbv zeta.
    assert (∀ pre post, name ∉ pre →
              translateBuildImages w L forceBuild noCache
                (pre ++ name :: post) s
              = ((translateBuildImages_range w L forceBuild noCache
                    buildKitHost false pre (St.mk s false [])).1,
                 Some (default
                         ("'build' and 'image' fields of service '"
                          +:+ name +:+ "' cannot be empty")
                         (translateBuildImages_range w L forceBuild noCache
                            buildKitHost false pre (St.mk s false [])).2)))
      as Hvisit.
    { intros pre post Hpre. unfold translateBuildImages.
      rewrite Hhost, range_app.
      pose proof (range_others w L forceBuild noCache buildKitHost false
                    pre (St.mk s false []) name Hpre) as Hkeep.
      destruct (translateBuildImages_range w L forceBuild noCache
                  buildKitHost false pre (St.mk s false []))
        as [st1 [e|]]; [done|].
      cbn [fst St.s] in Hkeep. cbn [translateBuildImages_range].
      rewrite Hkeep, Hsvc, body_config_error by done. done. }
    split_and!.
    + intros st. by apply body_config_error.
    + done.
    + intros order (pre & post & -> & Hpre)%list_elem_of_split_l.
      rewrite Hvisit by done. by eexists.
Qed.

(** Witness of C8 (amended) on the service "a" of [sample.stack_ab], which
    has a build and no image: on an Okteto cluster whose registry is
    empty, and on a cluster that is not Okteto's. *)
Lemma translateBuildImages_image_witness :
  let w := sample.world true (λ _ _ _, ErrNotFound) in
  let w' := sample.world false (λ _ _ _, ErrNotFound) in
  let host := "tcp://buildkit.okteto.net:1234" in
  let st := St.mk sample.stack_ab false [] in
  let image := "okteto.dev/app-a:okteto" in
  let target := Service.with_Image sample.svc_build_only image in
  let lookup := EvGetImageTagWithDigest "dev" image in
  let run := events.runOf w false host true "dev" target sample.build_here in
  let res :=
    translateBuildImages_service w sample.labels false false host true
      "a" sample.svc_build_only st in
  let all :=
    translateBuildImages w sample.labels false false ["a"; "b"]
      sample.stack_ab in
  let msg := "'build' and 'image' fields of service 'a' cannot be empty" in
  (BuildRun.image run = image
   ∧ calls (St.trace res.1) = [lookup; EvRun run]
   ∧ res.2 = None
   ∧ ∃ svc',
       Stack.Services (St.s res.1) !! "a" = Some svc'
       ∧ Service.Image svc' = image
       ∧ ∃ now,
           svc' = SetLastBuiltAnnotation "dev.okteto.com/last-built" now
                    target)
  ∧ ((∃ svc', Stack.Services (St.s all.1) !! "a" = Some svc'
              ∧ Service.Image svc' = image)
     ∧ lookup ∈ calls (St.trace all.1))
  ∧ (translateBuildImages_service w' sample.labels false false host false
       "a" sample.svc_build_only st
     = (st, Some msg)
     ∧ translateBuildImages w' sample.labels false false ["a"; "b"]
         sample.stack_ab
       = (st, Some msg)
     ∧ is_Some
         (translateBuildImages w' sample.labels false false ["b"; "a"]
            sample.stack_ab).2).
Proof.
  cbv zeta.
  destruct translateBuildImages_image as (Hbody & Hall & Hrefused).
  split; [|split].
  - exact (Hbody (sample.world true (λ _ _ _, ErrNotFound))
             sample.labels false false
             "tcp://buildkit.okteto.net:1234" "a"
             sample.svc_build_only sample.build_here
             (St.mk sample.stack_ab false []) eq_refl eq_refl).
  - apply (Hall (sample.world true (λ _ _ _, ErrNotFound)) sample.labels
             false false "tcp://buildkit.okteto.net:1234" ["a"; "b"]
             sample.stack_ab "a" sample.svc_build_only sample.build_here).
    + reflexivity.
    + apply NoDup_cons. split; [|apply NoDup_singleton].
      intros Hin. apply list_elem_of_singleton in Hin. discriminate Hin.
    + apply list_elem_of_here.
    + reflexivity.
    + reflexivity.
    + reflexivity.
    + reflexivity.
  - destruct (Hrefused (sample.world false (λ _ _ _, ErrNotFound))
                sample.labels false false "tcp://buildkit.okteto.net:1234"
                sample.stack_ab "a" sample.svc_build_only eq_refl eq_refl
                (ex_intro _ sample.build_here eq_refl) eq_refl)
      as (Hservice & Hvisit & Hfails).
    split; [|split].
    + apply Hservice.
    + apply (Hvisit [] ["b"]). intros Hin. by apply elem_of_nil in Hin.
    + apply Hfails. apply list_elem_of_further, list_elem_of_here.
Defined.

(** C8 as stated fails in its first half: the test is a comparison with
    the bare string "okteto.dev", not with the registry okteto.dev.  The
    image okteto.dev.evil.io/api of [sample.stack_evil] is not under
    okteto.dev/, and on an Okteto cluster it is kept as it is: the registry
    is asked about it, it is built, and the service is stored under it. *)
Lemma translateBuildImages_bare_prefix :
  let res :=
    translateBuildImages (sample.world true (λ _ _ _, ErrNotFound))
      sample.labels false false ["api"] sample.stack_evil in
  strings.HasPrefix (Service.Image sample.svc_evil) "okteto.dev/" = false
  ∧ strings.HasPrefix (Service.Image sample.svc_evil) "okteto.dev" = true
  ∧ res.2 = None
  ∧ events.image <$> calls (St.trace res.1)
    = [Some "okteto.dev.evil.io/api"; Some "okteto.dev.evil.io/api"]
  ∧ Service.Image <$> (Stack.Services (St.s res.1) !! "api")
    = Some "okteto.dev.evil.io/api"
  ∧ Service.Image <$> (Stack.Services (St.s res.1) !! "api")
    ≠ Some "okteto.dev/app-api:okteto".
Proof.
  cbv zeta. split_and!; try (vm_compute; reflexivity).
  vm_compute. intros H. discriminate H.
Qed.

(** ** Labels *)

Lemma lookup_rangeInto (l : list (string * string)) dst k :
  NoDup l.*1 →
  rangeInto l dst !! k
  = (list_to_map l ∪ dst : gmap string string) !! k.
Proof.
  revert dst. induction l as [|[k0 v0] l IH]; intros dst Hnd.
  - simpl. by rewrite (left_id_L ∅ (∪)).
  - rewrite fmap_cons in Hnd. apply NoDup_cons in Hnd as [Hk0 Hnd].
    cbn [rangeInto foldl]. fold (rangeInto l (<[k0:=v0]> dst)).
    rewrite IH by done. cbn [list_to_map foldr uncurry].
    apply (not_elem_of_list_to_map_1 (M := gmap string)) in Hk0.
    cbn [fst] in Hk0. rewrite !lookup_union. destruct (decide (k = k0)) as [->|Hne].
    + rewrite !lookup_insert_eq.
      rewrite Hk0. by destruct (dst !! k0).
    + by rewrite !lookup_insert_ne.
Qed.

(** Copying a map into another gives the union in which the copied map
    wins, in whatever order the copied map is ranged over. *)
Lemma rangeInto_union (src dst : gmap string string) order :
  order ≡ₚ map_to_list src → rangeInto order dst = src ∪ dst.
Proof.
  intros Horder. apply map_eq. intros k.
  rewrite lookup_rangeInto.
  - by rewrite <- (list_to_map_flip src order).
  - rewrite Horder. apply NoDup_fst_map_to_list.
Qed.

Lemma translateLabels_union L svcName s :
  translateLabels L svcName s
  = Service.Labels (default Service.zero (Stack.Services s !! svcName))
    ∪ translateLabelSelector L svcName s.
Proof. unfold translateLabels. by apply rangeInto_union. Qed.

(** C4 (amended): the workload and network objects of a service carry the
    labels of [translateLabels], in which the stack-name key maps to the
    stack's name and the service-name key to the service's name unless the
    service's own labels define that key; a user label under one of the
    two keys replaces the fixed value. *)
Theorem translateLabels_fixed_pair L svcName s :
  okLabels.StackNameLabel L ≠ okLabels.StackServiceNameLabel L →
  let svc := default Service.zero (Stack.Services s !! svcName) in
  let labels := translateLabels L svcName s in
  apiv1.ObjectMeta.Labels
    (appsv1.Deployment.Meta (translateDeployment L svcName s)) = labels
  ∧ apiv1.PodTemplateSpec.Labels
      (appsv1.Deployment.Template (translateDeployment L svcName s)) = labels
  ∧ apiv1.ObjectMeta.Labels
      (appsv1.StatefulSet.Meta (translateStatefulSet L svcName s)) = labels
  ∧ apiv1.PodTemplateSpec.Labels
      (appsv1.StatefulSet.Template (translateStatefulSet L svcName s)) = labels
  ∧ apiv1.ObjectMeta.Labels
      (apiv1.Service.Meta (translateService L svcName s)) = labels
  ∧ labels !! okLabels.StackNameLabel L
    = Some (default (Stack.Name s)
              (Service.Labels svc !! okLabels.StackNameLabel L))
  ∧ labels !! okLabels.StackServiceNameLabel L
    = Some (default svcName
              (Service.Labels svc !! okLabels.StackServiceNameLabel L)).
Proof.
  intros Hne. cbv zeta. split_and!; try reflexivity.
  - rewrite translateLabels_union, lookup_union.
    unfold translateLabelSelector. rewrite lookup_insert_eq.
    by destruct (Service.Labels _ !! _).
  - rewrite translateLabels_union, lookup_union.
    unfold translateLabelSelector.
    rewrite lookup_insert_ne, lookup_singleton_eq by done.
    by destruct (Service.Labels _ !! _).
Qed.

(** Witness of C4 (amended) on the service "web" of
    [sample.stack_labelled]. *)
Lemma translateLabels_fixed_pair_witness :
  let L := sample.labels in
  let s := sample.stack_labelled in
  let svc := default Service.zero (Stack.Services s !! "web") in
  let labels := translateLabels L "web" s in
  apiv1.ObjectMeta.Labels
    (appsv1.Deployment.Meta (translateDeployment L "web" s)) = labels
  ∧ apiv1.PodTemplateSpec.Labels
      (appsv1.Deployment.Template (translateDeployment L "web" s)) = labels
  ∧ apiv1.ObjectMeta.Labels
      (appsv1.StatefulSet.Meta (translateStatefulSet L "web" s)) = labels
  ∧ apiv1.PodTemplateSpec.Labels
      (appsv1.StatefulSet.Template (translateStatefulSet L "web" s)) = labels
  ∧ apiv1.ObjectMeta.Labels
      (apiv1.Service.Meta (translateService L "web" s)) = labels
  ∧ labels !! okLabels.StackNameLabel L
    = Some (default (Stack.Name s)
              (Service.Labels svc !! okLabels.StackNameLabel L))
  ∧ labels !! okLabels.StackServiceNameLabel L
    = Some (default "web"
              (Service.Labels svc !! okLabels.StackServiceNameLabel L)).
Proof.
  apply (translateLabels_fixed_pair sample.labels "web" sample.stack_labelled).
  intros H. discriminate H.
Defined.

(** C4 as stated fails: the service "web" of [sample.stack_labelled], a
    stack named "app", has a label under the stack-name key; its
    deployment and its network service are labelled with that value,
    "other", and not with "app". *)
Lemma translateLabels_user_label_overrides :
  Stack.Name sample.stack_labelled = "app"
  ∧ apiv1.ObjectMeta.Labels
      (appsv1.Deployment.Meta
         (translateDeployment sample.labels "web" sample.stack_labelled))
      !! okLabels.StackNameLabel sample.labels = Some "other"
  ∧ apiv1.ObjectMeta.Labels
      (apiv1.Service.Meta
         (translateService sample.labels "web" sample.stack_labelled))
      !! okLabels.StackNameLabel sample.labels = Some "other"
  ∧ translateLabels sample.labels "web" sample.stack_labelled
      !! okLabels.StackNameLabel sample.labels
    ≠ Some (Stack.Name sample.stack_labelled).
Proof.
  split_and!; try (vm_compute; reflexivity).
  vm_compute. intros H. discriminate H.
Qed.

(** ** Resources *)

Lemma Cmp_gt_0 q : Quantity.Cmp q Quantity.zero > 0 ↔ 0 < q.
Proof.
  unfold Quantity.Cmp, Quantity.zero.
  destruct (Z.compare_spec q 0); lia.
Qed.

Section translateResources_facts.

Variable svc : Service.t.

Local Abbreviation lim := (StackResources.Limits (Service.Resources svc)).
Local Abbreviation req := (StackResources.Requests (Service.Resources svc)).
Local Abbreviation cpu r := (Quantity.Value (ServiceResources.CPU r)).
Local Abbreviation memory r := (Quantity.Value (ServiceResources.Memory r)).
Local Abbreviation pos q := (Quantity.Cmp q Quantity.zero > 0).

(** The limits [translateResources] emits, case by case. *)
Lemma translateResources_Limits :
  apiv1.ResourceRequirements.Limits (translateResources svc)
  = if decide (pos (cpu req))
    then
      if decide (pos (memory req))
      then Some {[ "cpu" := cpu req; "memory" := memory req ]}
      else Some {[ "cpu" := cpu req ]}
    else
      if decide (pos (memory req))
      then
        if decide (pos (cpu lim))
        then Some {[ "cpu" := cpu lim; "memory" := memory req ]}
        else Some {[ "memory" := memory req ]}
      else
        if decide (pos (memory lim))
        then
          if decide (pos (cpu lim))
          then Some {[ "cpu" := cpu lim; "memory" := memory lim ]}
          else Some {[ "memory" := memory lim ]}
        else
          if decide (pos (cpu lim))
          then Some {[ "cpu" := cpu lim ]}
          else None.
Proof.
  unfold translateResources, apiv1.ResourceCPU, apiv1.ResourceMemory.
  cbn [apiv1.ResourceRequirements.Limits].
  repeat case_decide; cbn [default]; f_equal; apply map_eq; intros k;
    destruct (decide (k = "cpu")) as [Hc|Hc];
    destruct (decide (k = "memory")) as [Hm|Hm];
    subst; by simplify_map_eq.
Qed.

(** C9 (amended): [translateResources] never fills the requests section;
    every entry of the limits it emits is the CPU or memory limit or
    request of the service, under its own key, and compares strictly
    above zero; a CPU or memory request that compares strictly above zero
    is the entry of its key in the limits. *)
Theorem translateResources_entries :
  let r := translateResources svc in
  apiv1.ResourceRequirements.Requests r = None
  ∧ (∀ m k q,
       apiv1.ResourceRequirements.Limits r = Some m → m !! k = Some q →
       pos q
       ∧ (k = "cpu" ∧ (q = cpu lim ∨ q = cpu req)
          ∨ k = "memory" ∧ (q = memory lim ∨ q = memory req)))
  ∧ (pos (cpu req) →
     ∃ m, apiv1.ResourceRequirements.Limits r = Some m
          ∧ m !! "cpu" = Some (cpu req))
  ∧ (pos (memory req) →
     ∃ m, apiv1.ResourceRequirements.Limits r = Some m
          ∧ m !! "memory" = Some (memory req)).
Proof.
  cbv zeta. rewrite translateResources_Limits. split_and!.
  - reflexivity.
  - intros m k q Hm Hk.
    repeat case_decide; simplify_eq;
      destruct (decide (k = "cpu")) as [Hc|Hc];
      destruct (decide (k = "memory")) as [Hmem|Hmem];
      subst; simplify_map_eq; auto 6.
  - intros Hc. repeat case_decide; try contradiction;
      (eexists; split; [reflexivity|by simplify_map_eq]).
  - intros Hmem. repeat case_decide; try contradiction;
      (eexists; split; [reflexivity|by simplify_map_eq]).
Qed.

(** C10 (amended): when the CPU request compares strictly above zero, the
    limits emitted hold the CPU request, and the memory request if it
    compares above zero too, and nothing else: the declared CPU and
    memory limits do not reach the output, which is the same for every
    service that declares the same requests. *)
Theorem translateResources_request_replaces_limits :
  pos (cpu req) →
  apiv1.ResourceRequirements.Limits (translateResources svc)
  = Some (if decide (pos (memory req))
          then {[ "cpu" := cpu req; "memory" := memory req ]}
          else {[ "cpu" := cpu req ]})
  ∧ ∀ svc',
      StackResources.Requests (Service.Resources svc') = req →
      translateResources svc' = translateResources svc.
Proof.
  intros Hc. split.
  - rewrite translateResources_Limits.
    by repeat case_decide.
  - intros svc' Hreq. unfold translateResources. rewrite Hreq.
    destruct (decide (pos (cpu req))); [reflexivity|contradiction].
Qed.

End translateResources_facts.

(** C9 as stated fails for a request below zero: the CPU request -1 is not
    zero, and neither section of the emitted requirements holds it. *)
Lemma translateResources_negative_request_dropped :
  let svc := sample.svc_resources 0 0 (-1) 0 in
  Quantity.Value
    (ServiceResources.CPU (StackResources.Requests (Service.Resources svc)))
  = -1
  ∧ -1 ≠ 0
  ∧ translateResources svc = apiv1.ResourceRequirements.mk None None
  ∧ ¬ ∃ m, apiv1.ResourceRequirements.Limits (translateResources svc)
           = Some m
           ∧ m !! "cpu" = Some (-1).
Proof.
  cbv zeta. split_and!; [reflexivity|lia|reflexivity|].
  intros (m & Hm & _). discriminate Hm.
Qed.

(** Witness of C10 (amended): CPU limit 2, memory limit 512, CPU request
    1. *)
Lemma translateResources_request_replaces_limits_witness :
  apiv1.ResourceRequirements.Limits
    (translateResources (sample.svc_resources 2 512 1 0))
  = Some (if decide (Quantity.Cmp 0 Quantity.zero > 0)
          then {[ "cpu" := 1; "memory" := 0 ]}
          else {[ "cpu" := 1 ]})
  ∧ ∀ svc',
      StackResources.Requests (Service.Resources svc')
      = StackResources.Requests
          (Service.Resources (sample.svc_resources 2 512 1 0)) →
      translateResources svc'
      = translateResources (sample.svc_resources 2 512 1 0).
Proof.
  apply (translateResources_request_replaces_limits
           (sample.svc_resources 2 512 1 0)).
  reflexivity.
Defined.

(** C10 as stated fails for a CPU request below zero: with the CPU limit 2
    and the CPU request -1, both non-zero, the limits map is not replaced
    and the CPU limit stays in the output. *)
Lemma translateResources_negative_request_keeps_limits :
  let svc := sample.svc_resources 2 0 (-1) 0 in
  Quantity.Value
    (ServiceResources.CPU (StackResources.Limits (Service.Resources svc)))
  = 2
  ∧ Quantity.Value
      (ServiceResources.CPU (StackResources.Requests (Service.Resources svc)))
    = -1
  ∧ 2 ≠ 0 ∧ -1 ≠ 0
  ∧ translateResources svc
    = apiv1.ResourceRequirements.mk (Some {[ "cpu" := 2 ]}) None.
Proof. cbv zeta. split_and!; first [reflexivity | lia]. Qed.

(** * Further properties *)

Import shape.

(** A way to check [covers] on a concrete map. *)
Lemma covers_checked {A} (order : list string) (m : gmap string A) :
  forallb (λ name, bool_decide (name ∈ order)) (map_to_list m).*1 = true →
  covers order m.
Proof.
  intros Hall name [x Hx]. rewrite forallb_forall in Hall.
  eapply bool_decide_eq_true_1, Hall, list_elem_of_In, list_elem_of_fmap.
  exists (name, x). split; [done|]. by apply elem_of_map_to_list.
Qed.

(** ** validate *)

Lemma validate_volumes_ok errorf name volumes :
  validate_volumes errorf name volumes = None ↔ Forall volumeOk volumes.
Proof.
  unfold volumeOk. induction volumes as [|v l IH]; simpl.
  - split; [constructor|done].
  - rewrite Forall_cons.
    destruct (strings.HasPrefix v "/"); simpl; [|split; [done|by intros [[? _] _]]].
    destruct (strings.Contains v ":"); [split; [done|by intros [[_ ?] _]]|].
    rewrite IH. tauto.
Qed.

Lemma validate_services_range_ok regex errorf s order :
  validate_services_range regex errorf s order = None →
  ∀ name svc, name ∈ order → Stack.Services s !! name = Some svc →
    validate_service regex errorf name svc = None.
Proof.
  induction order as [|i order IH]; simpl; intros Hrun name svc Hin Hsvc.
  - by apply elem_of_nil in Hin.
  - destruct (Stack.Services s !! i) as [svci|] eqn:Hi.
    + destruct (validate_service regex errorf i svci) eqn:Hv; [done|].
      apply elem_of_cons in Hin as [->|Hin]; [congruence|by apply IH].
    + apply elem_of_cons in Hin as [->|Hin]; [congruence|by apply IH].
Qed.

Lemma validate_endpoints_range_ok s order :
  validate_endpoints_range s order = None →
  ∀ group endpoints, group ∈ order →
    Stack.Endpoints s !! group = Some endpoints →
    validate_endpoints s group endpoints = None.
Proof.
  induction order as [|i order IH]; simpl; intros Hrun group eps Hin Heps.
  - by apply elem_of_nil in Hin.
  - destruct (Stack.Endpoints s !! i) as [epsi|] eqn:Hi.
    + destruct (validate_endpoints s i epsi) eqn:Hv; [done|].
      apply elem_of_cons in Hin as [->|Hin]; [congruence|by apply IH].
    + apply elem_of_cons in Hin as [->|Hin]; [congruence|by apply IH].
Qed.

Lemma validate_None regex errorf endpointOrder serviceOrder s :
  validate regex errorf endpointOrder serviceOrder s = None →
  validateStackName regex (Stack.Name s) = None
  ∧ size (Stack.Services s) ≠ 0%nat
  ∧ validate_endpoints_range s endpointOrder = None
  ∧ validate_services_range regex errorf s serviceOrder = None.
Proof.
  unfold validate.
  destruct (validateStackName regex (Stack.Name s)); [done|].
  case_decide; [done|].
  destruct (validate_endpoints_range s endpointOrder); [done|].
  done.
Qed.

(** X1: a stack that [validate] accepts has a name that passes
    [validateStackName] and at least one service, and each of its services
    has a name that passes [validateStackName], an image or a build, and
    volumes that are all absolute paths without a colon. *)
Theorem validate_accepted_services regex errorf endpointOrder serviceOrder s :
  covers serviceOrder (Stack.Services s) →
  validate regex errorf endpointOrder serviceOrder s = None →
  validateStackName regex (Stack.Name s) = None
  ∧ Stack.Services s ≠ ∅
  ∧ ∀ name svc, Stack.Services s !! name = Some svc →
      validateStackName regex name = None
      ∧ (Service.Image svc ≠ "" ∨ is_Some (Service.Build svc))
      ∧ Forall volumeOk (Service.Volumes svc).
Proof.
  intros Hcov (Hname & Hsize & _ & Hsvcs)%validate_None. split_and!.
  - done.
  - intros Hempty. apply Hsize. rewrite Hempty. apply map_size_empty.
  - intros name svc Hsvc.
    pose proof (validate_services_range_ok regex errorf s serviceOrder Hsvcs name svc
                  (Hcov name (mk_is_Some _ _ Hsvc)) Hsvc) as Hv.
    unfold validate_service in Hv.
    destruct (validateStackName regex name); [done|].
    case_decide as Himg; [done|]. split_and!; [done| |by apply (validate_volumes_ok errorf name)].
    destruct (decide (Service.Image svc = "")) as [Hi|Hi]; [|by left].
    right. destruct (Service.Build svc); [done|]. destruct Himg. done.
Qed.

(** Witness of X1 on [sample.stack_web 81]. *)
Lemma validate_accepted_services_witness :
  let s := sample.stack_web 81 in
  validateStackName sample.ValidKubeNameRegex_MatchString (Stack.Name s) = None
  ∧ Stack.Services s ≠ ∅
  ∧ ∀ name svc, Stack.Services s !! name = Some svc →
      validateStackName sample.ValidKubeNameRegex_MatchString name = None
      ∧ (Service.Image svc ≠ "" ∨ is_Some (Service.Build svc))
      ∧ Forall volumeOk (Service.Volumes svc).
Proof.
  apply (validate_accepted_services sample.ValidKubeNameRegex_MatchString
           sample.Errorf
           ["main"] ["web"] (sample.stack_web 81)).
  - intros name [svc Hsvc]. destruct (decide (name = "web")) as [->|Hne].
    + apply list_elem_of_here.
    + unfold sample.stack_web in Hsvc. simpl in Hsvc.
      by rewrite lookup_singleton_ne in Hsvc.
  - vm_compute. reflexivity.
Defined.

(** X2: in a stack that [validate] accepts, every endpoint of every
    endpoint group routes to a service the stack declares. *)
Theorem validate_accepted_endpoints regex errorf endpointOrder serviceOrder s
    group endpoints e :
  covers endpointOrder (Stack.Endpoints s) →
  validate regex errorf endpointOrder serviceOrder s = None →
  Stack.Endpoints s !! group = Some endpoints → e ∈ endpoints →
  is_Some (Stack.Services s !! Endpoint.Service e).
Proof.
  intros Hcov (_ & _ & Heps & _)%validate_None Hgroup He.
  pose proof (validate_endpoints_range_ok s endpointOrder Heps group
                endpoints (Hcov group (mk_is_Some _ _ Hgroup)) Hgroup) as Hv.
  apply validate_endpoints_accepts in Hv.
  rewrite Forall_forall in Hv. destruct (Hv e He) as (svc & Hsvc & _).
  by rewrite Hsvc.
Qed.

(** Witness of X2 on the endpoint of [sample.stack_web 81]. *)
Lemma validate_accepted_endpoints_witness :
  is_Some (Stack.Services (sample.stack_web 81)
             !! Endpoint.Service (Endpoint.mk "/" "web" 81)).
Proof.
  apply (validate_accepted_endpoints sample.ValidKubeNameRegex_MatchString
           sample.Errorf
           ["main"] ["web"] (sample.stack_web 81) "main"
           [Endpoint.mk "/" "web" 81] (Endpoint.mk "/" "web" 81)).
  - intros name [eps Heps]. destruct (decide (name = "main")) as [->|Hne].
    + apply list_elem_of_here.
    + unfold sample.stack_web in Heps. simpl in Heps.
      by rewrite lookup_singleton_ne in Heps.
  - vm_compute. reflexivity.
  - reflexivity.
  - apply list_elem_of_here.
Defined.

Lemma Contains_char_app a b c :
  strings.Contains (a +:+ b) (String c "")
  = strings.Contains a (String c "") || strings.Contains b (String c "").
Proof.
  induction a as [|d a IH]; cbn [String.append].
  - by destruct b.
  - simpl. rewrite IH.
    destruct (Ascii.ascii_dec c d); [|done].
    by destruct (a +:+ b); destruct a.
Qed.

(** X3: [validate_volumes] stops at the first volume, in declared order,
    that is not absolute or holds a colon, and returns what [fmt.Errorf]
    makes of the text that names the volume and the service, which it is
    given as its format; a volume that is both relative and holds a colon
    is reported as not absolute, the test for the colon coming second.
    When neither the volume nor the name of the service holds a '%', the
    text has none, and the error is the text itself, package fmt
    returning a format without a '%' as it is. *)
Theorem validate_volumes_first_error errorf name good v rest :
  Forall volumeOk good → ¬ volumeOk v →
  let text :=
    "Invalid volume '" +:+ v +:+ "' in service '" +:+ name
    +:+ (if strings.HasPrefix v "/"
         then "': volume bind mounts are not supported"
         else "': must be an absolute path") in
  validate_volumes errorf name (good ++ v :: rest) = Some (errorf text)
  ∧ ((∀ format, strings.Contains format "%" = false →
        errorf format = format) →
     strings.Contains v "%" = false → strings.Contains name "%" = false →
     validate_volumes errorf name (good ++ v :: rest) = Some text).
Proof.
  intros Hgood Hv text.
  assert (validate_volumes errorf name (good ++ v :: rest)
          = Some (errorf text)) as Hrun.
  { subst text. induction Hgood as [|g good [Hg1 Hg2] _ IH]; simpl.
    - unfold volumeOk in Hv.
      destruct (strings.HasPrefix v "/"); simpl; [|done].
      destruct (strings.Contains v ":"); [done|]. by destruct Hv.
    - by rewrite Hg1, Hg2. }
  split; [done|]. intros Hplain Hvp Hnp. rewrite Hrun, Hplain; [done|].
  subst text. rewrite !Contains_char_app, Hvp, Hnp.
  by destruct (strings.HasPrefix v "/").
Qed.

(** Witness of X3: "data:/data", declared after "/var/lib", in the
    service "db". *)
Lemma validate_volumes_first_error_witness :
  let text :=
    "Invalid volume 'data:/data' in service 'db': must be an absolute path" in
  validate_volumes sample.Errorf "db"
    (["/var/lib"] ++ "data:/data" :: ["/tmp"])
  = Some (sample.Errorf text)
  ∧ validate_volumes sample.Errorf "db"
      (["/var/lib"] ++ "data:/data" :: ["/tmp"])
    = Some text.
Proof.
  cbv zeta.
  destruct (validate_volumes_first_error sample.Errorf "db" ["/var/lib"]
              "data:/data" ["/tmp"]) as [Hrun Hplain].
  - repeat constructor.
  - intros [Hprefix _]. discriminate Hprefix.
  - split; [exact Hrun|]. apply Hplain; [|reflexivity|reflexivity].
    intros format _. reflexivity.
Defined.

(** ** ReadStack *)

Lemma ReadStack_defaults_Services sbd order s :
  NoDup order → covers order (Stack.Services s) →
  Stack.Services (ReadStack_defaults sbd order s)
  = ReadStack_service sbd <$> Stack.Services s.
Proof. intros Hnd Hcov. simpl. by apply ReadStack_range_fmap. Qed.

(** X4: after the defaulting pass of [ReadStack] no service has zero
    replicas: a zero becomes 1 and any other count is kept. *)
Theorem ReadStack_defaults_replicas sbd order s name svc :
  NoDup order → covers order (Stack.Services s) →
  Stack.Services s !! name = Some svc →
  ∃ svc',
    Stack.Services (ReadStack_defaults sbd order s) !! name = Some svc'
    ∧ Service.Replicas svc'
      = (if decide (Service.Replicas svc = 0) then 1
         else Service.Replicas svc)
    ∧ Service.Replicas svc' ≠ 0.
Proof.
  intros Hnd Hcov Hsvc. exists (ReadStack_service sbd svc).
  rewrite ReadStack_defaults_Services, lookup_fmap, Hsvc by done.
  split_and!; [done| |]; rewrite ReadStack_service_eq;
    cbn [Service.Replicas]; by case_decide.
Qed.

(** Witness of X4 on [sample.svc_web], which declares no replicas. *)
Lemma ReadStack_defaults_replicas_witness :
  ∃ svc',
    Stack.Services
      (ReadStack_defaults sample.setBuildDefaults ["web"]
         (sample.stack_web 80)) !! "web" = Some svc'
    ∧ Service.Replicas svc'
      = (if decide (Service.Replicas sample.svc_web = 0) then 1
         else Service.Replicas sample.svc_web)
    ∧ Service.Replicas svc' ≠ 0.
Proof.
  apply (ReadStack_defaults_replicas sample.setBuildDefaults ["web"]
           (sample.stack_web 80) "web" sample.svc_web).
  - apply NoDup_singleton.
  - intros name [svc Hsvc]. destruct (decide (name = "web")) as [->|Hne].
    + apply list_elem_of_here.
    + unfold sample.stack_web in Hsvc. simpl in Hsvc.
      by rewrite lookup_singleton_ne in Hsvc.
  - reflexivity.
Defined.

(** X5: the defaulting pass appends the expose entries to the ports, keeps
    the expose list itself, and turns [public] off exactly when there are
    expose entries and there were no ports; otherwise [public] stays as
    declared. *)
Theorem ReadStack_service_expose sbd svc :
  let svc' := ReadStack_service sbd svc in
  Service.Ports svc' = Service.Ports svc ++ Service.Expose svc
  ∧ Service.Expose svc' = Service.Expose svc
  ∧ Service.Public svc'
    = (if decide (Service.Expose svc ≠ [] ∧ Service.Ports svc = [])
       then false else Service.Public svc).
Proof.
  cbv zeta. rewrite ReadStack_service_eq.
  cbn [Service.Ports Service.Expose Service.Public].
  destruct (Service.Expose svc) as [|x xs], (Service.Ports svc) as [|p ps];
    cbn [length]; split_and!; try done; repeat case_decide;
    rewrite ?app_nil_r; try done; try lia; naive_solver.
Qed.

(** X6: the result of the defaulting pass does not depend on the order in
    which the services map is ranged over, and it declares the same
    services, endpoints, name, namespace and manifest as before. *)
Theorem ReadStack_defaults_order_irrelevant sbd order1 order2 s :
  NoDup order1 → covers order1 (Stack.Services s) →
  NoDup order2 → covers order2 (Stack.Services s) →
  ReadStack_defaults sbd order1 s = ReadStack_defaults sbd order2 s
  ∧ dom (Stack.Services (ReadStack_defaults sbd order1 s))
    = dom (Stack.Services s)
  ∧ Stack.Endpoints (ReadStack_defaults sbd order1 s) = Stack.Endpoints s
  ∧ Stack.Name (ReadStack_defaults sbd order1 s) = Stack.Name s
  ∧ Stack.Namespace (ReadStack_defaults sbd order1 s) = Stack.Namespace s
  ∧ Stack.Manifest (ReadStack_defaults sbd order1 s) = Stack.Manifest s.
Proof.
  intros Hnd1 Hcov1 Hnd2 Hcov2. split_and!; try reflexivity.
  - unfold ReadStack_defaults. by rewrite !ReadStack_range_fmap.
  - rewrite ReadStack_defaults_Services by done. apply dom_fmap_L.
Qed.

(** Witness of X6 on [sample.stack_ab], ranged over as "a", "b" and as
    "b", "a". *)
Lemma ReadStack_defaults_order_irrelevant_witness :
  let f := ReadStack_defaults sample.setBuildDefaults in
  f ["a"; "b"] sample.stack_ab = f ["b"; "a"] sample.stack_ab
  ∧ dom (Stack.Services (f ["a"; "b"] sample.stack_ab))
    = dom (Stack.Services sample.stack_ab)
  ∧ Stack.Endpoints (f ["a"; "b"] sample.stack_ab)
    = Stack.Endpoints sample.stack_ab
  ∧ Stack.Name (f ["a"; "b"] sample.stack_ab) = Stack.Name sample.stack_ab
  ∧ Stack.Namespace (f ["a"; "b"] sample.stack_ab)
    = Stack.Namespace sample.stack_ab
  ∧ Stack.Manifest (f ["a"; "b"] sample.stack_ab)
    = Stack.Manifest sample.stack_ab.
Proof.
  assert (∀ order, "a" ∈ order → "b" ∈ order →
            covers order (Stack.Services sample.stack_ab)) as Hcov.
  { intros order Ha Hb name [svc Hsvc].
    destruct (decide (name = "a")) as [->|Hna]; [done|].
    destruct (decide (name = "b")) as [->|Hnb]; [done|].
    unfold sample.stack_ab in Hsvc. simpl in Hsvc.
    rewrite lookup_insert_ne, lookup_singleton_ne in Hsvc by done. done. }
  apply (ReadStack_defaults_order_irrelevant sample.setBuildDefaults
           ["a"; "b"] ["b"; "a"] sample.stack_ab).
  - apply NoDup_cons. split; [|apply NoDup_singleton].
    intros Hin. apply list_elem_of_singleton in Hin. discriminate Hin.
  - apply Hcov; set_solver.
  - apply NoDup_cons. split; [|apply NoDup_singleton].
    intros Hin. apply list_elem_of_singleton in Hin. discriminate Hin.
  - apply Hcov; set_solver.
Defined.

(** X7: after the defaulting pass, [IsPortInService] finds a port among the
    ports of a service exactly when the service declared it as a port or as
    an expose entry. *)
Theorem IsPortInService_defaulted sbd svc port :
  IsPortInService port (Service.Ports (ReadStack_service sbd svc)) = true
  ↔ port ∈ Service.Ports svc ∨ port ∈ Service.Expose svc.
Proof.
  rewrite IsPortInService_elem_of, ReadStack_service_Ports.
  case_decide as Hexp.
  - apply elem_of_app.
  - destruct (Service.Expose svc); [|simpl in Hexp; lia].
    split; [by left|]. intros [?|Hin]; [done|by apply elem_of_nil in Hin].
Qed.

(** ** translateStackEnvVars *)

Lemma Stack_eq (s1 s2 : Stack.t) :
  Stack.Name s1 = Stack.Name s2 → Stack.Namespace s1 = Stack.Namespace s2 →
  Stack.Services s1 = Stack.Services s2 →
  Stack.Endpoints s1 = Stack.Endpoints s2 →
  Stack.Manifest s1 = Stack.Manifest s2 → s1 = s2.
Proof. destruct s1, s2; simpl; congruence. Qed.

Section translateStackEnvVars_more.

Variable w : World.t.

Lemma translateStackEnvVars_range_shape order s :
  let s' := (translateStackEnvVars_range w order s).1 in
  Stack.Name s' = Stack.Name s
  ∧ Stack.Namespace s' = Stack.Namespace s
  ∧ Stack.Endpoints s' = Stack.Endpoints s
  ∧ Stack.Manifest s' = Stack.Manifest s
  ∧ dom (Stack.Services s') = dom (Stack.Services s).
Proof.
  cbv zeta. revert s. induction order as [|i order IH]; intros s;
    cbn [translateStackEnvVars_range]; [done|].
  destruct (Stack.Services s !! i) as [svc|] eqn:Hi; [|apply IH].
  destruct (translateStackEnvVars_service w svc) as [svc'|err]; [|done].
  destruct (IH (Stack.with_Services s (<[i:=svc']> (Stack.Services s))))
    as (H1 & H2 & H3 & H4 & H5).
  split_and!; try done.
  rewrite H5. cbn [Stack.Services Stack.with_Services].
  apply dom_insert_lookup_L. by rewrite Hi.
Qed.

Lemma translateStackEnvVars_range_succeeds order s :
  NoDup order →
  (∀ name svc, name ∈ order → Stack.Services s !! name = Some svc →
     ∃ svc', translateStackEnvVars_service w svc = Ok svc') →
  ∃ s', translateStackEnvVars_range w order s = (s', None).
Proof.
  revert s. induction order as [|i order IH]; intros s Hnd Hok;
    cbn [translateStackEnvVars_range]; [by eauto|].
  apply NoDup_cons in Hnd as [Hi Hnd].
  destruct (Stack.Services s !! i) as [svc|] eqn:Hsi.
  - destruct (Hok i svc) as [svc' ->]; [left|done|].
    apply IH; [done|]. intros name svcn Hin.
    cbn [Stack.Services Stack.with_Services].
    rewrite lookup_insert_ne by (intros ->; done).
    intros Hn. apply (Hok name svcn); [by right|done].
  - apply IH; [done|]. intros name svcn Hin Hn.
    apply (Hok name svcn); [by right|done].
Qed.

(** X8: when [translateStackEnvVars] returns no error, the stack it leaves
    does not depend on the order in which the services map was ranged
    over. *)
Theorem translateStackEnvVars_order_irrelevant order1 order2 s s1 :
  NoDup order1 → covers order1 (Stack.Services s) →
  NoDup order2 → covers order2 (Stack.Services s) →
  translateStackEnvVars w order1 s = (s1, None) →
  translateStackEnvVars w order2 s = (s1, None).
Proof.
  unfold translateStackEnvVars. intros Hnd1 Hcov1 Hnd2 Hcov2 Hrun1.
  destruct (translateStackEnvVars_range_ok w order1 s s1 Hnd1 Hrun1)
    as [Hv1 Hu1].
  destruct (translateStackEnvVars_range_succeeds order2 s Hnd2) as [s2 Hrun2].
  { intros name svc _ Hsvc.
    destruct (Hv1 name svc) as (svc' & Hb & _); [|done|by eauto].
    apply Hcov1. by rewrite Hsvc. }
  rewrite Hrun2. f_equal.
  destruct (translateStackEnvVars_range_ok w order2 s s2 Hnd2 Hrun2)
    as [Hv2 Hu2].
  pose proof (translateStackEnvVars_range_shape order1 s) as S1.
  pose proof (translateStackEnvVars_range_shape order2 s) as S2.
  rewrite Hrun1 in S1. rewrite Hrun2 in S2. cbn [fst] in S1, S2.
  destruct S1 as (A1 & A2 & A3 & A4 & A5), S2 as (B1 & B2 & B3 & B4 & B5).
  apply Stack_eq; try congruence.
  apply map_eq. intros name.
  destruct (Stack.Services s !! name) as [svc|] eqn:Hsvc.
  - destruct (Hv1 name svc) as (svc1 & Hb1 & ->);
      [apply Hcov1; by rewrite Hsvc|done|].
    destruct (Hv2 name svc) as (svc2 & Hb2 & ->);
      [apply Hcov2; by rewrite Hsvc|done|].
    congruence.
  - apply not_elem_of_dom in Hsvc.
    assert (Stack.Services s1 !! name = None) as ->
      by (apply not_elem_of_dom; by rewrite A5).
    apply not_elem_of_dom. by rewrite B5.
Qed.

(** X9: whatever it returns, [translateStackEnvVars] leaves the stack with
    the name, namespace, endpoints and manifest it had, and with the same
    service names: it adds and removes no service. *)
Theorem translateStackEnvVars_keeps_shape order s :
  let s' := (translateStackEnvVars w order s).1 in
  Stack.Name s' = Stack.Name s
  ∧ Stack.Namespace s' = Stack.Namespace s
  ∧ Stack.Endpoints s' = Stack.Endpoints s
  ∧ Stack.Manifest s' = Stack.Manifest s
  ∧ dom (Stack.Services s') = dom (Stack.Services s).
Proof. apply translateStackEnvVars_range_shape. Qed.

(** X12: when [translateStackEnvVars] returns an error, it is the error of
    the loop body on one of the services visited, and that service is left
    in the stack as it was declared, env-file references included. *)
Theorem translateStackEnvVars_error order s s' err :
  NoDup order →
  translateStackEnvVars w order s = (s', Some err) →
  ∃ name svc,
    name ∈ order ∧ Stack.Services s !! name = Some svc
    ∧ translateStackEnvVars_service w svc = Err err
    ∧ Stack.Services s' !! name = Some svc.
Proof.
  unfold translateStackEnvVars. revert s.
  induction order as [|i order IH]; intros s Hnd Hrun;
    cbn [translateStackEnvVars_range] in Hrun; [done|].
  apply NoDup_cons in Hnd as [Hi Hnd].
  destruct (Stack.Services s !! i) as [svc|] eqn:Hsi.
  - destruct (translateStackEnvVars_service w svc) as [svc1|e] eqn:Hb.
    + destruct (IH _ Hnd Hrun) as (name & svcn & Hin & Hn & Hbn & Hn').
      cbn [Stack.Services Stack.with_Services] in Hn.
      rewrite lookup_insert_ne in Hn by (intros ->; done).
      exists name, svcn. split_and!; [by right|done..].
    + simplify_eq. exists i, svc. split_and!; [by left|done..].
  - destruct (IH _ Hnd Hrun) as (name & svcn & Hin & Hn & Hbn & Hn').
    exists name, svcn. split_and!; [by right|done..].
Qed.

End translateStackEnvVars_more.

(** Witness of X8 on [sample.stack_env], ranged over as "a", "b" and as
    "b", "a". *)
Lemma translateStackEnvVars_order_irrelevant_witness :
  let w := sample.world true (λ _ _ _, ErrNotFound) in
  translateStackEnvVars w ["b"; "a"] sample.stack_env
  = ((translateStackEnvVars w ["a"; "b"] sample.stack_env).1, None).
Proof.
  apply (translateStackEnvVars_order_irrelevant
           (sample.world true (λ _ _ _, ErrNotFound)) ["a"; "b"] ["b"; "a"]
           sample.stack_env).
  - apply NoDup_cons. split; [|apply NoDup_singleton].
    intros Hin. apply list_elem_of_singleton in Hin. discriminate Hin.
  - apply covers_checked. reflexivity.
  - apply NoDup_cons. split; [|apply NoDup_singleton].
    intros Hin. apply list_elem_of_singleton in Hin. discriminate Hin.
  - apply covers_checked. reflexivity.
  - reflexivity.
Defined.

(** Witness of X12 on [sample.stack_missing_file]. *)
Lemma translateStackEnvVars_error_witness :
  let w := sample.world true (λ _ _ _, ErrNotFound) in
  ∃ name svc,
    name ∈ ["a"] ∧ Stack.Services sample.stack_missing_file !! name = Some svc
    ∧ translateStackEnvVars_service w svc
      = Err "open missing.env: no such file or directory"
    ∧ Stack.Services sample.stack_missing_file !! name = Some svc.
Proof.
  apply (translateStackEnvVars_error
           (sample.world true (λ _ _ _, ErrNotFound)) ["a"]
           sample.stack_missing_file sample.stack_missing_file
           "open missing.env: no such file or directory").
  - apply NoDup_singleton.
  - reflexivity.
Defined.


Lemma NoDup_names_byName l :
  NoDup (names l) ↔ ∀ n, (length (byName n l) ≤ 1)%nat.
Proof.
  unfold names. induction l as [|e l IH].
  - split; [intros _ n; simpl; lia|intros _; constructor].
  - rewrite fmap_cons, NoDup_cons, IH. split.
    + intros [Hn Hl] n. unfold byName. rewrite filter_cons.
      case_decide as He; [|apply Hl]. subst n.
      fold (byName (EnvVar.Name e) l). rewrite byName_not_elem by done.
      simpl. lia.
    + intros Hl. split.
      * intros Hin%elem_names_byName. specialize (Hl (EnvVar.Name e)).
        unfold byName in Hl, Hin. rewrite filter_cons, decide_True in Hl by done.
        destruct (filter _ l); [done|simpl in Hl; lia].
      * intros n. specialize (Hl n). unfold byName in *.
        rewrite filter_cons in Hl. case_decide; simpl in Hl; lia.
Qed.

Lemma sortedByName_strict l :
  sortedByName l → NoDup (names l) →
  StronglySorted
    (λ a b, strings.Compare (EnvVar.Name a) (EnvVar.Name b) < 0) l.
Proof.
  unfold sortedByName, names. induction l as [|e l IH]; [constructor|].
  rewrite fmap_cons, NoDup_cons. intros [Hall Hs]%StronglySorted_cons [Hn Hnd].
  apply StronglySorted_cons. split; [|by apply IH].
  rewrite Forall_forall in *. intros y Hy. specialize (Hall y Hy).
  assert (EnvVar.Name e ≠ EnvVar.Name y) as Hne.
  { intros Heq. apply Hn. rewrite Heq. apply list_elem_of_fmap. eauto. }
  unfold strings.Compare in *.
  destruct (String.compare (EnvVar.Name e) (EnvVar.Name y)) eqn:Hc; try lia.
  by apply String.compare_eq_iff in Hc.
Qed.



(** X11: when the explicit environment of a service defines no name twice,
    neither does its resolved environment, which is then strictly
    ascending by name. *)
Theorem translateStackEnvVars_service_unique w svc svc' ms :
  (∀ m, World.rangeEnv w m ≡ₚ map_to_list m) →
  translateStackEnvVars_service w svc = Ok svc' →
  Forall2 (parses w) (Service.EnvFiles svc) ms →
  NoDup (names (Service.Environment svc)) →
  NoDup (names (Service.Environment svc'))
  ∧ StronglySorted
      (λ a b, strings.Compare (EnvVar.Name a) (EnvVar.Name b) < 0)
      (Service.Environment svc').
Proof.
  intros Hperm Hrun Hfiles Hnd.
  destruct (translateStackEnvVars_service_merge w Hperm svc svc' ms Hrun Hfiles)
    as (_ & Hsorted & Hby).
  assert (NoDup (names (Service.Environment svc'))) as Hnd'.
  { apply NoDup_names_byName. intros n. rewrite Hby.
    case_decide; [by apply NoDup_names_byName|].
    destruct (firstValue ms n); simpl; lia. }
  split; [done|]. by apply sortedByName_strict.
Qed.

(** Witness of X11 on [sample.svc_explicit]. *)
Lemma translateStackEnvVars_service_unique_witness :
  let svc' :=
    Service.with_EnvFiles
      (Service.with_Environment sample.svc_explicit
         [EnvVar.mk "FOO" "0"; EnvVar.mk "ZED" "z"]) [] in
  NoDup (names (Service.Environment svc'))
  ∧ StronglySorted
      (λ a b, strings.Compare (EnvVar.Name a) (EnvVar.Name b) < 0)
      (Service.Environment svc').
Proof.
  apply (translateStackEnvVars_service_unique
           (sample.world true (λ _ _ _, ErrNotFound)) sample.svc_explicit
           (Service.with_EnvFiles
              (Service.with_Environment sample.svc_explicit
                 [EnvVar.mk "FOO" "0"; EnvVar.mk "ZED" "z"]) [])
           [{[ "FOO" := "1" ]}; {[ "FOO" := "2" ]}]).
  - intros m. reflexivity.
  - reflexivity.
  - repeat constructor; by (eexists _, _; split_and!; reflexivity).
  - apply NoDup_cons. split; [|apply NoDup_singleton].
    intros Hin. apply list_elem_of_singleton in Hin. discriminate Hin.
Defined.

(** ** translateBuildImages *)

Section translateBuildImages_more.

Variable w : World.t.
Variable L : okLabels.t.
Variables (forceBuild noCache : bool) (buildKitHost : string)
          (isOktetoCluster : bool).

Local Abbreviation body :=
  (translateBuildImages_service w L forceBuild noCache buildKitHost
     isOktetoCluster).
Local Abbreviation build :=
  (translateBuildImages_build w L noCache buildKitHost isOktetoCluster).
Local Abbreviation range :=
  (translateBuildImages_range w L forceBuild noCache buildKitHost
     isOktetoCluster).

Lemma targetImage_fields stackName name svc :
  let target := targetImage isOktetoCluster stackName name svc in
  Service.Annotations target = Service.Annotations svc
  ∧ Service.Build target = Service.Build svc
  ∧ Service.Environment target = Service.Environment svc
  ∧ Service.EnvFiles target = Service.EnvFiles svc.
Proof. unfold targetImage. by destruct (_ && _). Qed.

(** What the loop body does to the stack: nothing, or one store under the
    name of the service it runs on, of a service that has a build and the
    environment it had. *)
Lemma body_stack name svc st :
  St.s (body name svc st).1 = St.s st
  ∨ ∃ svc',
      is_Some (Service.Build svc)
      ∧ Service.Environment svc' = Service.Environment svc
      ∧ Service.EnvFiles svc' = Service.EnvFiles svc
      ∧ St.s (body name svc st).1
        = Stack.with_Services (St.s st)
            (<[name := svc']> (Stack.Services (St.s st))).
Proof.
  unfold translateBuildImages_service.
  destruct (Service.Build svc) as [b|] eqn:Hb; [|by left].
  destruct (negb isOktetoCluster && bool_decide (Service.Image svc = ""));
    [by left|].
  destruct (targetImage_fields (Stack.Name (St.s st)) name svc)
    as (_ & _ & Henv & Hfiles).
  set (target := targetImage _ _ _ _) in *.
  assert (∀ st', St.s st' = St.s st →
            St.s (build name target b st').1 = St.s st
            ∨ ∃ svc', is_Some (Some b)
                ∧ Service.Environment svc' = Service.Environment svc
                ∧ Service.EnvFiles svc' = Service.EnvFiles svc
                ∧ St.s (build name target b st').1
                  = Stack.with_Services (St.s st)
                      (<[name := svc']> (Stack.Services (St.s st)))) as Hbuild.
  { intros st' Hst'.
    destruct (build_outcome w L noCache buildKitHost isOktetoCluster
                name target b st') as (evs & _ & _ & _ & Hout).
    cbv zeta in Hout. destruct (World.Run w _ _) as [err|].
    - left. destruct Hout as [_ ->]. done.
    - right. destruct Hout as [_ [now ->]]. rewrite Hst'.
      eexists. split_and!; [done| | |reflexivity]; done. }
  destruct forceBuild; cbn [negb].
  - by apply Hbuild.
  - destruct (World.GetImageTagWithDigest w _ _ _).
    + right. cbn. eauto 6.
    + by apply Hbuild.
    + right. cbn. eauto 6.
Qed.

Lemma body_shape name svc st :
  Stack.Services (St.s st) !! name = Some svc →
  let s' := St.s (body name svc st).1 in
  Stack.Name s' = Stack.Name (St.s st)
  ∧ Stack.Namespace s' = Stack.Namespace (St.s st)
  ∧ Stack.Endpoints s' = Stack.Endpoints (St.s st)
  ∧ Stack.Manifest s' = Stack.Manifest (St.s st)
  ∧ dom (Stack.Services s') = dom (Stack.Services (St.s st))
  ∧ ∀ n svcn, Stack.Services (St.s st) !! n = Some svcn →
      Service.Build svcn = None → Stack.Services s' !! n = Some svcn.
Proof.
  intros Hsvc. cbv zeta.
  destruct (body_stack name svc st) as [->|(svc' & [b Hb] & _ & _ & ->)];
    [done|].
  cbn [Stack.Name Stack.Namespace Stack.Endpoints Stack.Manifest
         Stack.Services Stack.with_Services].
  split_and!; try done.
  - apply dom_insert_lookup_L. by rewrite Hsvc.
  - intros n svcn Hn Hnone. destruct (decide (n = name)) as [->|Hne].
    + congruence.
    + by rewrite lookup_insert_ne.
Qed.

Lemma range_shape order st :
  let s' := St.s (range order st).1 in
  Stack.Name s' = Stack.Name (St.s st)
  ∧ Stack.Namespace s' = Stack.Namespace (St.s st)
  ∧ Stack.Endpoints s' = Stack.Endpoints (St.s st)
  ∧ Stack.Manifest s' = Stack.Manifest (St.s st)
  ∧ dom (Stack.Services s') = dom (Stack.Services (St.s st))
  ∧ ∀ n svcn, Stack.Services (St.s st) !! n = Some svcn →
      Service.Build svcn = None → Stack.Services s' !! n = Some svcn.
Proof.
  cbv zeta. revert st. induction order as [|i order IH]; intros st;
    cbn [translateBuildImages_range]; [done|].
  destruct (Stack.Services (St.s st) !! i) as [svc|] eqn:Hi; [|apply IH].
  pose proof (body_shape i svc st Hi) as HB. cbv zeta in HB.
  destruct (body i svc st) as [st1 [e|]]; cbn [fst] in *; [done|].
  destruct HB as (B1 & B2 & B3 & B4 & B5 & B6).
  destruct (IH st1) as (I1 & I2 & I3 & I4 & I5 & I6).
  split_and!; try congruence. intros n svcn Hn Hnone.
  apply I6; [|done]. by apply B6.
Qed.

Lemma body_keeps_env name svc st n svcn' :
  Stack.Services (St.s st) !! name = Some svc →
  Stack.Services (St.s (body name svc st).1) !! n = Some svcn' →
  ∃ svcn,
    Stack.Services (St.s st) !! n = Some svcn
    ∧ Service.Environment svcn' = Service.Environment svcn
    ∧ Service.EnvFiles svcn' = Service.EnvFiles svcn.
Proof.
  intros Hsvc.
  destruct (body_stack name svc st) as [->|(svc' & _ & He & Hf & ->)];
    [by eauto|].
  cbn [Stack.Services Stack.with_Services].
  destruct (decide (n = name)) as [->|Hne].
  - rewrite lookup_insert_eq. intros [= <-]. eauto.
  - rewrite lookup_insert_ne by done. eauto.
Qed.

Lemma range_keeps_env order st n svcn' :
  Stack.Services (St.s (range order st).1) !! n = Some svcn' →
  ∃ svcn,
    Stack.Services (St.s st) !! n = Some svcn
    ∧ Service.Environment svcn' = Service.Environment svcn
    ∧ Service.EnvFiles svcn' = Service.EnvFiles svcn.
Proof.
  revert st. induction order as [|i order IH]; intros st;
    cbn [translateBuildImages_range]; [by eauto|].
  destruct (Stack.Services (St.s st) !! i) as [svc|] eqn:Hi; [|apply IH].
  pose proof (body_keeps_env i svc st n) as HB.
  destruct (body i svc st) as [st1 [e|]]; cbn [fst] in *.
  - intros Hn. by apply HB.
  - intros Hn. destruct (IH st1 Hn) as (svc1 & H1 & He1 & Hf1).
    destruct (HB svc1 Hi H1) as (svcn & H0 & He0 & Hf0).
    exists svcn. split_and!; [done|congruence..].
Qed.

Lemma body_no_lookup name svc st :
  forceBuild = true →
  Forall (λ e, events.isLookup e = false) (St.trace st) →
  Forall (λ e, events.isLookup e = false) (St.trace (body name svc st).1).
Proof.
  intros -> Hst. unfold translateBuildImages_service.
  destruct (Service.Build svc) as [b|]; [|done].
  destruct (negb isOktetoCluster && bool_decide (Service.Image svc = ""));
    [done|].
  cbn [negb].
  match goal with
  | |- context [build name ?t b st] =>
      destruct (build_outcome w L noCache buildKitHost isOktetoCluster
                  name t b st) as (evs & -> & Hevs & _)
  end.
  by apply Forall_app.
Qed.

Lemma range_no_lookup order st :
  forceBuild = true →
  Forall (λ e, events.isLookup e = false) (St.trace st) →
  Forall (λ e, events.isLookup e = false) (St.trace (range order st).1).
Proof.
  intros Hfb. revert st. induction order as [|i order IH]; intros st Hst;
    cbn [translateBuildImages_range]; [done|].
  destruct (Stack.Services (St.s st) !! i) as [svc|]; [|by apply IH].
  pose proof (body_no_lookup i svc st Hfb Hst) as HB.
  destruct (body i svc st) as [st1 [e|]]; cbn [fst] in *; [done|].
  by apply IH.
Qed.

Lemma range_nothing_to_build order st :
  (∀ name svc, Stack.Services (St.s st) !! name = Some svc →
     Service.Build svc = None) →
  range order st = (st, None).
Proof.
  intros Hnone. induction order as [|i order IH];
    cbn [translateBuildImages_range]; [done|].
  destruct (Stack.Services (St.s st) !! i) as [svc|] eqn:Hi; [|done].
  unfold translateBuildImages_service. by rewrite (Hnone i svc Hi).
Qed.

End translateBuildImages_more.

(** X13: with [forceBuild] set, [translateBuildImages] never asks the
    registry: no event of its run is a call of
    [registry.GetImageTagWithDigest]. *)
Theorem translateBuildImages_forced_no_lookup w L noCache order s :
  Forall (λ e, events.isLookup e = false)
    (St.trace (translateBuildImages w L true noCache order s).1).
Proof.
  unfold translateBuildImages.
  destruct (World.GetBuildKitHost w) as [[host ok]|err]; [|by constructor].
  pose proof (range_no_lookup w L true noCache host ok order
                (St.mk s false []) eq_refl (Forall_nil_2 _)) as Hr.
  destruct (translateBuildImages_range w L true noCache host ok order
              (St.mk s false [])) as [st' [e|]]; cbn [fst] in *; [done|].
  destruct (negb (St.building st') && true); [|done].
  cbn [emit St.trace]. apply Forall_app. split; [done|]. by repeat constructor.
Qed.

(** X14: on a stack none of whose services has a build,
    [translateBuildImages] calls neither the registry nor the build
    service, returns no error and leaves the stack as it is; it logs the
    warning that the build flag is ignored exactly when [forceBuild] is
    set. *)
Theorem translateBuildImages_nothing_to_build w L forceBuild noCache
    buildKitHost isOktetoCluster order s :
  World.GetBuildKitHost w = Ok (buildKitHost, isOktetoCluster) →
  (∀ name svc, Stack.Services s !! name = Some svc →
     Service.Build svc = None) →
  translateBuildImages w L forceBuild noCache order s
  = (St.mk s false
       (if forceBuild
        then [EvLog Warning
                "Ignoring '--build' argument. There are not 'build' primitives in your stack"]
        else []),
     None).
Proof.
  intros Hhost Hnone. unfold translateBuildImages. rewrite Hhost.
  rewrite range_nothing_to_build by done.
  by destruct forceBuild.
Qed.

(** Witness of X14 on [sample.stack_web 80], with [forceBuild] set. *)
Lemma translateBuildImages_nothing_to_build_witness :
  translateBuildImages (sample.world true (λ _ _ _, ErrNotFound)) sample.labels
    true false ["web"] (sample.stack_web 80)
  = (St.mk (sample.stack_web 80) false
       (if true
        then [EvLog Warning
                "Ignoring '--build' argument. There are not 'build' primitives in your stack"]
        else []),
     None).
Proof.
  apply (translateBuildImages_nothing_to_build
           (sample.world true (λ _ _ _, ErrNotFound)) sample.labels true false
           "tcp://buildkit.okteto.net:1234" true ["web"]
           (sample.stack_web 80)).
  - reflexivity.
  - intros name svc Hsvc. unfold sample.stack_web in Hsvc. simpl in Hsvc.
    apply lookup_singleton_Some in Hsvc as [_ <-]. reflexivity.
Defined.

(** X15: whatever it returns, [translateBuildImages] leaves the stack with
    the name, namespace, endpoints and manifest it had and with the same
    service names, and leaves every service that has no build exactly as
    it was. *)
Theorem translateBuildImages_keeps_shape w L forceBuild noCache order s :
  let s' := St.s (translateBuildImages w L forceBuild noCache order s).1 in
  Stack.Name s' = Stack.Name s
  ∧ Stack.Namespace s' = Stack.Namespace s
  ∧ Stack.Endpoints s' = Stack.Endpoints s
  ∧ Stack.Manifest s' = Stack.Manifest s
  ∧ dom (Stack.Services s') = dom (Stack.Services s)
  ∧ ∀ name svc, Stack.Services s !! name = Some svc →
      Service.Build svc = None → Stack.Services s' !! name = Some svc.
Proof.
  cbv zeta. unfold translateBuildImages.
  destruct (World.GetBuildKitHost w) as [[host ok]|err]; [|done].
  pose proof (range_shape w L forceBuild noCache host ok order
                (St.mk s false [])) as Hr. cbv zeta in Hr.
  destruct (translateBuildImages_range w L forceBuild noCache host ok order
              (St.mk s false [])) as [st' [e|]]; cbn [fst St.s] in *; [done|].
  by destruct (negb (St.building st') && forceBuild).
Qed.

(** X16: when the loop body reaches [build.Run] for a service, because
    [forceBuild] is set or the registry returned [ErrNotFound], and the
    build fails, the body returns the error with the name of the service
    and leaves the stack as it was: the service keeps the image it
    declared and gets no annotation. *)
Theorem translateBuildImages_build_failure w L forceBuild noCache
    buildKitHost isOktetoCluster name svc b st err :
  Service.Build svc = Some b →
  negb isOktetoCluster && bool_decide (Service.Image svc = "") = false →
  let target :=
    targetImage isOktetoCluster (Stack.Name (St.s st)) name svc in
  let namespace := Stack.Namespace (St.s st) in
  let lookup := EvGetImageTagWithDigest namespace (Service.Image target) in
  events.builds forceBuild
    (World.GetImageTagWithDigest w (calls (St.trace st)) namespace
       (Service.Image target)) = true →
  World.Run w
    (calls (St.trace st) ++ (if forceBuild then [] else [lookup]))
    (events.runOf w noCache buildKitHost isOktetoCluster namespace target b)
  = Some err →
  let res :=
    translateBuildImages_service w L forceBuild noCache buildKitHost
      isOktetoCluster name svc st in
  res.2 = Some ("error building image for '" +:+ name +:+ "': " +:+ err)
  ∧ St.s res.1 = St.s st.
Proof.
  intros Hb Hcfg target namespace lookup Hbuilds Hrun. cbv zeta.
  unfold translateBuildImages_service. rewrite Hb, Hcfg.
  fold target. unfold events.builds in Hbuilds.
  assert (∀ st', St.s st' = St.s st →
            calls (St.trace st')
            = calls (St.trace st) ++ (if forceBuild then [] else [lookup]) →
            (translateBuildImages_build w L noCache buildKitHost
               isOktetoCluster name target b st').2
            = Some ("error building image for '" +:+ name +:+ "': " +:+ err)
            ∧ St.s (translateBuildImages_build w L noCache buildKitHost
                      isOktetoCluster name target b st').1 = St.s st)
    as Hbuild.
  { intros st' Hst' Hcalls.
    destruct (build_outcome w L noCache buildKitHost isOktetoCluster
                name target b st') as (evs & _ & _ & _ & Hout).
    cbv zeta in Hout. rewrite Hcalls, Hst' in Hout.
    fold namespace in Hout. rewrite Hrun in Hout.
    destruct Hout as [-> ->]. done. }
  destruct forceBuild; cbn [negb orb] in *.
  - apply Hbuild; [done|]. by rewrite app_nil_r.
  - cbn [emit St.s]. fold namespace.
    destruct (World.GetImageTagWithDigest w (calls (St.trace st)) namespace
                (Service.Image target));
      try done.
    apply Hbuild; [done|]. cbn [emit St.trace].
    rewrite calls_log, calls_app. done.
Qed.

(** Witness of X16 on the service "api" of [sample.stack_api], with
    [forceBuild] set and a build service that fails. *)
Lemma translateBuildImages_build_failure_witness :
  let w := sample.world_build_fails (λ _ _ _, ErrNotFound) in
  let st := St.mk sample.stack_api false [] in
  let res :=
    translateBuildImages_service w sample.labels true false
      "tcp://buildkit.okteto.net:1234" false "api" sample.svc_api st in
  res.2 = Some ("error building image for '" +:+ "api" +:+ "': "
                +:+ "exit code: 1")
  ∧ St.s res.1 = St.s st.
Proof.
  apply (translateBuildImages_build_failure
           (sample.world_build_fails (λ _ _ _, ErrNotFound)) sample.labels
           true false "tcp://buildkit.okteto.net:1234" false "api"
           sample.svc_api sample.build_here
           (St.mk sample.stack_api false []) "exit code: 1").
  - reflexivity.
  - reflexivity.
  - reflexivity.
  - reflexivity.
Defined.

(** X17: when the loop body returns no error for a service with a build,
    the service is stored with its target image and its build; if the body
    went on to [build.Run], the stored service has the last-built
    annotation set and its other annotations kept, and if the build was
    skipped its annotations are as declared. *)
Theorem translateBuildImages_stamps_built w L forceBuild noCache
    buildKitHost isOktetoCluster name svc b st :
  Service.Build svc = Some b →
  let target :=
    targetImage isOktetoCluster (Stack.Name (St.s st)) name svc in
  let tag :=
    World.GetImageTagWithDigest w (calls (St.trace st))
      (Stack.Namespace (St.s st)) (Service.Image target) in
  let res :=
    translateBuildImages_service w L forceBuild noCache buildKitHost
      isOktetoCluster name svc st in
  res.2 = None →
  ∃ svc',
    Stack.Services (St.s res.1) !! name = Some svc'
    ∧ Service.Image svc' = Service.Image target
    ∧ Service.Build svc' = Some b
    ∧ if events.builds forceBuild tag
      then ∃ now,
             Service.Annotations svc'
             = <[okLabels.LastBuiltAnnotation L := now]>
                 (Service.Annotations svc)
      else Service.Annotations svc' = Service.Annotations svc.
Proof.
  intros Hb target tag. cbv zeta.
  unfold translateBuildImages_service. rewrite Hb.
  destruct (negb isOktetoCluster && bool_decide (Service.Image svc = ""));
    [done|].
  fold target.
  destruct (targetImage_fields isOktetoCluster (Stack.Name (St.s st)) name svc)
    as (Hann & Hbuild & _ & _). fold target in Hann, Hbuild.
  assert (∀ st',
            (translateBuildImages_build w L noCache buildKitHost
               isOktetoCluster name target b st').2 = None →
            ∃ svc',
              Stack.Services
                (St.s (translateBuildImages_build w L noCache buildKitHost
                         isOktetoCluster name target b st').1) !! name
              = Some svc'
              ∧ Service.Image svc' = Service.Image target
              ∧ Service.Build svc' = Some b
              ∧ ∃ now,
                  Service.Annotations svc'
                  = <[okLabels.LastBuiltAnnotation L := now]>
                      (Service.Annotations svc)) as Hstamp.
  { intros st' Hok.
    destruct (build_outcome w L noCache buildKitHost isOktetoCluster
                name target b st') as (evs & _ & _ & _ & Hout).
    cbv zeta in Hout. destruct (World.Run w _ _) as [err|].
    - destruct Hout as [Herr _]. congruence.
    - destruct Hout as [_ [now ->]].
      cbn [Stack.Services Stack.with_Services]. rewrite lookup_insert_eq.
      eexists. split_and!; [reflexivity|reflexivity|..].
      + cbn. by rewrite Hbuild, Hb.
      + exists now. cbn. by rewrite Hann. }
  unfold events.builds. destruct forceBuild; cbn [negb orb].
  - apply Hstamp.
  - cbn [emit St.s]. fold tag. destruct tag.
    + intros _. cbn. rewrite lookup_insert_eq. eexists.
      split_and!; [reflexivity|reflexivity|by rewrite Hbuild, Hb|done].
    + apply Hstamp.
    + intros _. cbn. rewrite lookup_insert_eq. eexists.
      split_and!; [reflexivity|reflexivity|by rewrite Hbuild, Hb|done].
Qed.

(** Witness of X17 on the service "a" of [sample.stack_ab], whose image the
    registry does not have. *)
Lemma translateBuildImages_stamps_built_witness :
  let w := sample.world true (λ _ _ _, ErrNotFound) in
  let L := sample.labels in
  let st := St.mk sample.stack_ab false [] in
  let target := targetImage true "app" "a" sample.svc_build_only in
  let tag :=
    World.GetImageTagWithDigest w (calls (St.trace st)) "dev"
      (Service.Image target) in
  let res :=
    translateBuildImages_service w L false false
      "tcp://buildkit.okteto.net:1234" true "a" sample.svc_build_only st in
  ∃ svc',
    Stack.Services (St.s res.1) !! "a" = Some svc'
    ∧ Service.Image svc' = Service.Image target
    ∧ Service.Build svc' = Some sample.build_here
    ∧ if events.builds false tag
      then ∃ now,
             Service.Annotations svc'
             = <[okLabels.LastBuiltAnnotation L := now]>
                 (Service.Annotations sample.svc_build_only)
      else Service.Annotations svc'
           = Service.Annotations sample.svc_build_only.
Proof.
  apply (translateBuildImages_stamps_built
           (sample.world true (λ _ _ _, ErrNotFound)) sample.labels false false
           "tcp://buildkit.okteto.net:1234" true "a" sample.svc_build_only
           sample.build_here (St.mk sample.stack_ab false [])).
  - reflexivity.
  - reflexivity.
Defined.

(** ** Labels, annotations, ports, volumes and resources *)

(** X18: the labels of [translateLabels] hold every label the service
    declares, with the value it declares. *)
Theorem translateLabels_keeps_user_labels L svcName s :
  Service.Labels (default Service.zero (Stack.Services s !! svcName))
  ⊆ translateLabels L svcName s.
Proof. rewrite translateLabels_union. apply map_union_subseteq_l. Qed.

(** X19: the label selector of a service's workload and network objects is
    contained in the labels of [translateLabels], so that it selects the
    pods of the workload, exactly when no label the service declares gives
    one of the selector's keys another value. *)
Theorem translateLabelSelector_matches L svcName s :
  translateLabelSelector L svcName s ⊆ translateLabels L svcName s
  ↔ ∀ k v, translateLabelSelector L svcName s !! k = Some v →
      Service.Labels (default Service.zero (Stack.Services s !! svcName)) !! k
      = None
      ∨ Service.Labels (default Service.zero (Stack.Services s !! svcName)) !! k
        = Some v.
Proof.
  rewrite translateLabels_union, map_subseteq_spec.
  split; intros H k v Hk; specialize (H k v Hk).
  - apply lookup_union_Some_raw in H as [H|[H _]]; [by right|by left].
  - apply lookup_union_Some_raw. destruct H as [H|H]; [by right|by left].
Qed.

(** X20: [translateAnnotations] returns the annotations of the service, as
    they are; the network object of a service carries them, with the
    auto-ingress annotation set to "true" when the service is public, and
    its type is a load balancer when the service is public and cluster-IP
    otherwise. *)
Theorem translateService_annotations L svcName s :
  let svc := default Service.zero (Stack.Services s !! svcName) in
  translateAnnotations svc = Service.Annotations svc
  ∧ apiv1.ObjectMeta.Annotations
      (apiv1.Service.Meta (translateService L svcName s))
    = (if Service.Public svc
       then <[okLabels.OktetoAutoIngressAnnotation L := "true"]>
              (Service.Annotations svc)
       else Service.Annotations svc)
  ∧ apiv1.Service.Type_ (translateService L svcName s)
    = (if Service.Public svc
       then apiv1.ServiceTypeLoadBalancer
       else apiv1.ServiceTypeClusterIP).
Proof.
  cbv zeta.
  assert (∀ svc, translateAnnotations svc = Service.Annotations svc) as Hann.
  { intros svc. unfold translateAnnotations.
    rewrite (rangeInto_union (Service.Annotations svc)) by done.
    apply (right_id_L ∅ (∪)). }
  split_and!; [apply Hann| |reflexivity].
  unfold translateService. cbn. by rewrite Hann.
Qed.


(** X21: a service gets one volume mount per volume it declares, in the
    order declared and at the path declared, all on the claim "pvc", and
    no two of them share a sub-path. *)
Theorem translateVolumeMounts_distinct svc :
  apiv1.VolumeMount.MountPath <$> translateVolumeMounts svc
  = Service.Volumes svc
  ∧ Forall (λ m, apiv1.VolumeMount.Name m = pvcName)
      (translateVolumeMounts svc)
  ∧ NoDup (apiv1.VolumeMount.SubPath <$> translateVolumeMounts svc).
Proof.
  unfold translateVolumeMounts. split_and!.
  - rewrite fmap_imap. apply list_eq. intros i.
    rewrite list_lookup_imap. by destruct (Service.Volumes svc !! i).
  - apply Forall_forall. intros m (i & v & -> & _)%elem_of_lookup_imap. done.
  - rewrite fmap_imap. apply NoDup_alt. intros i j x.
    rewrite !list_lookup_imap. intros Hi Hj.
    destruct (Service.Volumes svc !! i), (Service.Volumes svc !! j);
      simplify_eq/=.
    done.
Qed.

(** X22: the container ports of a service are its ports, and its service
    ports expose each port on itself, in the same order, under the name
    "p-" followed by the port; the names of the service ports are distinct
    exactly when the ports are. *)
Theorem translateServicePorts_names svc :
  translateContainerPorts svc = Service.Ports svc
  ∧ apiv1.ServicePort.Port <$> translateServicePorts svc = Service.Ports svc
  ∧ apiv1.ServicePort.TargetPort <$> translateServicePorts svc
    = Service.Ports svc
  ∧ apiv1.ServicePort.Name <$> translateServicePorts svc
    = (λ p, "p-" +:+ pretty p) <$> Service.Ports svc
  ∧ (NoDup (apiv1.ServicePort.Name <$> translateServicePorts svc)
     ↔ NoDup (Service.Ports svc)).
Proof.
  unfold translateContainerPorts, translateServicePorts.
  assert (Inj (=) (=) (λ p : Z, "p-" +:+ pretty p)) as Hinj.
  { intros p q Hpq. apply (inj (String.app "p-")) in Hpq.
    by apply (inj pretty) in Hpq. }
  rewrite <- !list_fmap_compose. split_and!.
  - apply list_fmap_id.
  - apply list_fmap_id.
  - apply list_fmap_id.
  - done.
  - apply (NoDup_fmap (λ p : Z, "p-" +:+ pretty p)).
Qed.

(** X23: when the CPU request of a service does not compare above zero,
    the CPU entry of the emitted limits is the CPU limit, if that compares
    above zero, and the memory entry is the memory request if that
    compares above zero, the memory limit if only that does, and absent
    otherwise. *)
Theorem translateResources_without_cpu_request svc :
  let lim := StackResources.Limits (Service.Resources svc) in
  let req := StackResources.Requests (Service.Resources svc) in
  let cpu r := Quantity.Value (ServiceResources.CPU r) in
  let memory r := Quantity.Value (ServiceResources.Memory r) in
  let entry k :=
    apiv1.ResourceRequirements.Limits (translateResources svc) ≫= (.!! k) in
  ¬ Quantity.Cmp (cpu req) Quantity.zero > 0 →
  entry "cpu"
  = (if decide (Quantity.Cmp (cpu lim) Quantity.zero > 0)
     then Some (cpu lim) else None)
  ∧ entry "memory"
    = (if decide (Quantity.Cmp (memory req) Quantity.zero > 0)
       then Some (memory req)
       else if decide (Quantity.Cmp (memory lim) Quantity.zero > 0)
            then Some (memory lim) else None).
Proof.
  cbv zeta. intros Hreq. rewrite translateResources_Limits.
  rewrite decide_False by done.
  repeat case_decide; split; by simplify_map_eq.
Qed.

(** Witness of X23: CPU limit 2, memory limit 512, memory request 256. *)
Lemma translateResources_without_cpu_request_witness :
  let svc := sample.svc_resources 2 512 0 256 in
  let entry k :=
    apiv1.ResourceRequirements.Limits (translateResources svc) ≫= (.!! k) in
  entry "cpu"
  = (if decide (Quantity.Cmp 2 Quantity.zero > 0) then Some 2 else None)
  ∧ entry "memory"
    = (if decide (Quantity.Cmp 256 Quantity.zero > 0)
       then Some 256
       else if decide (Quantity.Cmp 512 Quantity.zero > 0)
            then Some 512 else None).
Proof.
  apply (translateResources_without_cpu_request
           (sample.svc_resources 2 512 0 256)).
  intros H. discriminate H.
Defined.

(** ** UpdateNamespace, ingresses and names *)

(** X24: [UpdateNamespace] returns no error exactly when the namespace
    given is empty, or the stack has no namespace yet, or has the one
    given; on an error the stack is left as it was, and otherwise it has
    the namespace given, or keeps its own when that is empty; nothing else
    of the stack changes. *)
Theorem UpdateNamespace_outcome namespace s :
  let res := UpdateNamespace namespace s in
  (res.2 = None
   ↔ namespace = "" ∨ Stack.Namespace s = ""
     ∨ Stack.Namespace s = namespace)
  ∧ (res.2 ≠ None → res.1 = s)
  ∧ (res.2 = None →
     Stack.Namespace res.1
     = if decide (namespace = "") then Stack.Namespace s else namespace)
  ∧ Stack.Name res.1 = Stack.Name s
  ∧ Stack.Services res.1 = Stack.Services s
  ∧ Stack.Endpoints res.1 = Stack.Endpoints s
  ∧ Stack.Manifest res.1 = Stack.Manifest s.
Proof.
  cbv zeta. unfold UpdateNamespace.
  destruct (decide (namespace = "")) as [->|Hns]; cbn [fst snd].
  - split_and!; try done. split; [by left|done].
  - case_decide as Hcon; cbn [fst snd].
    + split_and!; try done. split; [done|].
      intros [?|[?|?]]; [done|by destruct Hcon..].
    + split_and!; try done. split; [|done]. intros _. right.
      destruct (decide (Stack.Namespace s = "")) as [?|Hne]; [by left|right].
      destruct (decide (Stack.Namespace s = namespace)) as [?|Hne']; [done|].
      by destruct Hcon.
Qed.

(** X25: once [UpdateNamespace] has set a non-empty namespace, setting the
    same namespace again changes nothing, and a later call returns no error
    exactly for the empty namespace and for that same namespace. *)
Theorem UpdateNamespace_set_once namespace namespace' s s1 :
  namespace ≠ "" →
  UpdateNamespace namespace s = (s1, None) →
  UpdateNamespace namespace s1 = (s1, None)
  ∧ ((UpdateNamespace namespace' s1).2 = None
     ↔ namespace' = "" ∨ namespace' = namespace).
Proof.
  intros Hns Hrun.
  assert (Stack.Namespace s1 = namespace) as Hs1.
  { unfold UpdateNamespace in Hrun. rewrite decide_False in Hrun by done.
    case_decide; by simplify_eq. }
  split.
  - unfold UpdateNamespace. rewrite decide_False by done.
    rewrite decide_False by (rewrite Hs1; by intros [_ ?]).
    f_equal. destruct s1; simpl in *. by subst.
  - unfold UpdateNamespace.
    destruct (decide (namespace' = "")) as [->|Hns']; [by split; [left|]|].
    rewrite Hs1. case_decide as Hcon; cbn [snd].
    + split; [done|]. intros [?|?]; [done|]. destruct Hcon. congruence.
    + split; [|done]. intros _. right.
      destruct (decide (namespace = namespace')) as [?|Hne]; [done|].
      by destruct Hcon.
Qed.

(** Witness of X25 on [sample.stack_web 80], which has no namespace. *)
Lemma UpdateNamespace_set_once_witness :
  let s1 := (UpdateNamespace "dev" (sample.stack_web 80)).1 in
  UpdateNamespace "dev" s1 = (s1, None)
  ∧ ((UpdateNamespace "prod" s1).2 = None ↔ "prod" = "" ∨ "prod" = "dev").
Proof.
  apply (UpdateNamespace_set_once "dev" "prod" (sample.stack_web 80)).
  - intros H. discriminate H.
  - reflexivity.
Defined.



(** X27: two stacks have the same config map name exactly when they have
    the same name. *)
Theorem GetConfigMapName_inj s1 s2 :
  GetConfigMapName s1 = GetConfigMapName s2 ↔ Stack.Name s1 = Stack.Name s2.
Proof.
  unfold GetConfigMapName. split; [|by intros ->].
  apply (inj (String.app "okteto-")).
Qed.

(** ** translate *)

Lemma translateStackEnvVars_service_resolved w svc svc' :
  translateStackEnvVars_service w svc = Ok svc' →
  Service.EnvFiles svc' = [] ∧ sortedByName (Service.Environment svc').
Proof.
  unfold translateStackEnvVars_service.
  destruct (World.ExpandEnv w (Service.Image svc)) as [image|]; [|done].
  cbv zeta. destruct (translateStackEnvVars_files _ _ _) as [svc1|]; [|done].
  intros [= <-]. split; [done|]. apply sortedByName_SliceStable.
Qed.

(** X28: when [translate] returns no error, no service of the stack it
    leaves has env-file references, and the environment of each is
    ascending by name: the build loop keeps what the environment
    resolution made of every service's environment. *)
Theorem translate_resolved w L forceBuild noCache envOrder buildOrder s st
    name svc' :
  NoDup envOrder → covers envOrder (Stack.Services s) →
  translate w L forceBuild noCache envOrder buildOrder s = (st, None) →
  Stack.Services (St.s st) !! name = Some svc' →
  Service.EnvFiles svc' = [] ∧ sortedByName (Service.Environment svc').
Proof.
  intros Hnd Hcov. unfold translate, translateStackEnvVars.
  destruct (translateStackEnvVars_range w envOrder s) as [s1 [e|]] eqn:Henv;
    [done|].
  intros Hbuild Hname.
  destruct (translateStackEnvVars_range_ok w envOrder s s1 Hnd Henv)
    as [Hv _].
  pose proof (translateStackEnvVars_range_shape w envOrder s) as Hshape.
  rewrite Henv in Hshape. cbn [fst] in Hshape.
  destruct Hshape as (_ & _ & _ & _ & Hdom).
  unfold translateBuildImages in Hbuild.
  destruct (World.GetBuildKitHost w) as [[host ok]|err]; [|done].
  pose proof (range_keeps_env w L forceBuild noCache host ok buildOrder
                (St.mk s1 false []) name svc') as Hkeep.
  destruct (translateBuildImages_range w L forceBuild noCache host ok
              buildOrder (St.mk s1 false [])) as [st' [e|]]; [done|].
  cbn [fst St.s] in Hkeep. simplify_eq.
  assert (Stack.Services (St.s st') !! name = Some svc') as Hst'
    by (by destruct (negb (St.building st') && forceBuild)).
  destruct (Hkeep Hst') as (svc1 & Hs1 & -> & ->).
  assert (is_Some (Stack.Services s !! name)) as [svc Hsvc].
  { apply elem_of_dom. rewrite <- Hdom. apply elem_of_dom. by rewrite Hs1. }
  destruct (Hv name svc) as (svc1' & Hb & Hs1');
    [apply Hcov; by rewrite Hsvc|done|].
  assert (svc1' = svc1) as -> by congruence.
  by apply (translateStackEnvVars_service_resolved w svc).
Qed.

(** Witness of X28 on the service "a" of [sample.stack_env]. *)
Lemma translate_resolved_witness :
  Service.EnvFiles
    (Service.with_EnvFiles
       (Service.with_Environment sample.svc_two_files
          [EnvVar.mk "FOO" "1"]) []) = []
  ∧ sortedByName
      (Service.Environment
         (Service.with_EnvFiles
            (Service.with_Environment sample.svc_two_files
               [EnvVar.mk "FOO" "1"]) [])).
Proof.
  apply (translate_resolved (sample.world true (λ _ _ _, ErrNotFound))
           sample.labels false false ["a"; "b"] ["b"; "a"] sample.stack_env
           (translate (sample.world true (λ _ _ _, ErrNotFound)) sample.labels
              false false ["a"; "b"] ["b"; "a"] sample.stack_env).1
           "a").
  - apply NoDup_cons. split; [|apply NoDup_singleton].
    intros Hin. apply list_elem_of_singleton in Hin. discriminate Hin.
  - apply covers_checked. reflexivity.
  - reflexivity.
  - reflexivity.
Defined.
